(** * multiping_ng: the probing engine of [new_pinger.py]

    A shallow embedding of the Python program.  Python objects that are
    mutated in place ([TestResult] instances and their [history] lists) live
    in an explicit heap and are referred to by location; exceptions are an
    error result; the outcomes of the probes and the wall clock are inputs
    of a tick. *)

From Stdlib Require Import ZArith QArith Lqa Ascii String List Lia.
From stdpp Require Import base option list gmap strings.

Local Open Scope string_scope.
Local Open Scope list_scope.
Local Open Scope Z_scope.

(** ** ANSI colour definitions *)

Definition ESC : string := String "027"%char EmptyString.

Definition BOLD : string := ESC +:+ "[1m".
Definition RESET : string := ESC +:+ "[0m".
Definition YELLOW : string := ESC +:+ "[33m".
Definition RED : string := ESC +:+ "[31m".
Definition GREEN : string := ESC +:+ "[32m".

(** ** Latencies

    A latency is a Python [float] (milliseconds) or [None].  The floats the
    probers produce are finite, hence rational numbers; the integer
    constants [-1] and [0] the recorder stores in the same field are
    rationals as well. *)

Definition Qltb (x y : Q) : bool := negb (Qle_bool y x).

(** ** [MultiPing.symbol_for_latency] *)

(** The string [f"{BOLD}{YELLOW}o{RESET}"]. *)
Definition MEDIUM : string := BOLD +:+ YELLOW +:+ "o" +:+ RESET.

Definition symbol_for_latency (latency : option Q) : string :=
  match latency with
  | None => "."
  | Some l =>
      if Qltb l 10 then "."
      else if Qltb l 100 then MEDIUM
      else "O"
  end.

(** ** Objects, heap and exceptions *)

Abbreviation loc := nat.

(** A [TestResult] instance.  [history] is a reference to the list object
    created by [["."] * history_length]. *)
Record TestResult := mkTestResult {
  protocol : string;
  port : option Z;
  history : loc;
  latency : Q;
  last_seen : string;
  service : string
}.

Definition set_latency (v : Q) (o : TestResult) : TestResult :=
  mkTestResult (protocol o) (port o) (history o) v (last_seen o) (service o).
Definition set_last_seen (v : string) (o : TestResult) : TestResult :=
  mkTestResult (protocol o) (port o) (history o) (latency o) v (service o).
Definition set_service (v : string) (o : TestResult) : TestResult :=
  mkTestResult (protocol o) (port o) (history o) (latency o) (last_seen o) v.

(** A [Host]; [tests] holds references to [TestResult] instances. *)
Record Host := mkHost {
  ip : string;
  description : string;
  tests : list loc;
  host_history_length : Z
}.

Record MultiPing := mkMultiPing {
  history_length : Z;
  current_index : Z;
  hosts : list Host
}.

(** What the instrumented program records: every [list.__setitem__] of
    [update_history], every assignment to a [last_seen] attribute and every
    [executor.submit]. *)
Inductive event :=
| EvWrite (buf : loc) (index : Z) (symbol : string)
| EvLastSeen (test : loc) (text : string)
| EvSubmit (test : loc).

Record heap := mkHeap {
  objs : gmap nat TestResult;
  lists : gmap nat (list string);
  log : list event
}.

Inductive config_error :=
| NoHostsKey
| MissingPort (ip : string)
| BadPortRange (port_val : string) (ip : string)
| BadPort (port_val : string) (ip : string)
| InvalidIP (ip : string).

(** [BadRef] is a reference to a location that holds no object; Python has
    no such thing, and no heap built by the constructors contains one. *)
Inductive exn :=
| IndexError
| SystemExit (e : config_error)
| BadRef.

Inductive result (A : Type) :=
| Ok (a : A)
| Raise (e : exn).
Arguments Ok {A} a.
Arguments Raise {A} e.

Definition M (A : Type) : Type := heap -> result (A * heap).

Definition ret {A} (a : A) : M A := fun s => Ok (a, s).
Definition bind {A B} (c : M A) (k : A -> M B) : M B :=
  fun s => match c s with
           | Ok (a, s') => k a s'
           | Raise e => Raise e
           end.
Definition raise {A} (e : exn) : M A := fun _ => Raise e.

Declare Scope py_scope.
Delimit Scope py_scope with py.
Notation "x <- c ;; k" := (bind c (fun x => k))
  (at level 100, c at next level, right associativity) : py_scope.
Notation "c ;;; k" := (bind c (fun _ => k))
  (at level 100, right associativity) : py_scope.
Local Open Scope py_scope.

Definition get_obj (t : loc) : M TestResult :=
  fun s => match objs s !! t with
           | Some o => Ok (o, s)
           | None => Raise BadRef
           end.

Definition set_obj (t : loc) (o : TestResult) : M unit :=
  fun s => Ok (tt, mkHeap (<[t := o]> (objs s)) (lists s) (log s)).

Definition get_list (b : loc) : M (list string) :=
  fun s => match lists s !! b with
           | Some l => Ok (l, s)
           | None => Raise BadRef
           end.

Definition set_list (b : loc) (l : list string) : M unit :=
  fun s => Ok (tt, mkHeap (objs s) (<[b := l]> (lists s)) (log s)).

Definition emit (e : event) : M unit :=
  fun s => Ok (tt, mkHeap (objs s) (lists s) (log s ++ [e])).

Definition new_list (l : list string) : M loc :=
  fun s => let b := fresh (dom (lists s)) in
           Ok (b, mkHeap (objs s) (<[b := l]> (lists s)) (log s)).

Definition new_obj (o : TestResult) : M loc :=
  fun s => let t := fresh (dom (objs s)) in
           Ok (t, mkHeap (<[t := o]> (objs s)) (lists s) (log s)).

(** [for x in l: body(x)] *)
Fixpoint for_each {A} (l : list A) (body : A -> M unit) : M unit :=
  match l with
  | [] => ret tt
  | x :: l' => body x ;;; for_each l' body
  end.

(** Python list indexing: [l[i]] for [-len(l) <= i < len(l)], [IndexError]
    otherwise. *)
Definition py_index (len : nat) (i : Z) : option nat :=
  if (0 <=? i) && (i <? Z.of_nat len) then Some (Z.to_nat i)
  else if (- Z.of_nat len <=? i) && (i <? 0) then Some (Z.to_nat (Z.of_nat len + i))
  else None.

(** ** [TestResult] *)

(** [str.upper], on ASCII letters. *)
Definition upper_ascii (c : ascii) : ascii :=
  let n := nat_of_ascii c in
  if ((97 <=? n) && (n <=? 122))%nat then ascii_of_nat (n - 32) else c.

Fixpoint upper (s : string) : string :=
  match s with
  | EmptyString => EmptyString
  | String c s' => String (upper_ascii c) (upper s')
  end.

(** [TestResult.__init__].  [clock self] is what [time.strftime("%c")]
    returns while the instance [self] is initialised. *)
Definition TestResult_init (clock : loc -> string) (protocol : string)
    (port : option Z) (history_length : Z) : M loc :=
  fun s =>
    let self := fresh (dom (objs s)) in
    (h <- new_list (repeat "." (Z.to_nat history_length)) ;;
     new_obj (mkTestResult (upper protocol) port h (-1)
                ("Last seen: " +:+ clock self) "")) s.

Definition update_history (t : loc) (index : Z) (symbol : string) : M unit :=
  o <- get_obj t ;;
  l <- get_list (history o) ;;
  match py_index (length l) index with
  | None => raise IndexError
  | Some i =>
      set_list (history o) (<[i := symbol]> l) ;;;
      emit (EvWrite (history o) index symbol)
  end.

(** The loop of [get_history_string], [i] running over [range(history_length)]
    from [i0]; [s] is the string built so far. *)
Fixpoint get_history_loop (l : list string) (current_index history_length : Z)
    (i0 : Z) (n : nat) (s : string) : result string :=
  match n with
  | O => Ok s
  | S n' =>
      let idx := (current_index - i0 + history_length) `mod` history_length in
      match py_index (length l) idx with
      | None => Raise IndexError
      | Some k =>
          match l !! k with
          | Some x => get_history_loop l current_index history_length (i0 + 1) n' (s +:+ x)
          | None => Raise IndexError
          end
      end
  end.

Definition get_history_string (t : loc) (current_index history_length : Z) : M string :=
  o <- get_obj t ;;
  l <- get_list (history o) ;;
  match get_history_loop l current_index history_length 0 (Z.to_nat history_length) "" with
  | Ok s => ret s
  | Raise e => raise e
  end.

(** ** [MultiPing.update_tests] *)

(** The probers [run_icmp_test] and [run_tcp_test] talk to the network; what
    they return is an input here.  [future.result(timeout=0.5)] for the
    future of one task returns the prober's pair, re-raises the prober's
    exception, or raises [TimeoutError]. *)
Inductive future_outcome :=
| Returned (up : bool) (latency : option Q)
| Raised
| TimedOut.

(** The inputs of one tick.  A future is named by the test object it was
    submitted for; [strftime t] is what [time.strftime("%c")] returns while
    the result of [t] is processed. *)
Record tick_env := mkTickEnv {
  future_of : loc -> future_outcome;
  strftime : loc -> string
}.

(** [try: result = future.result(timeout=0.5) except Exception: result = (False, None)] *)
Definition future_result (f : future_outcome) : bool * option Q :=
  match f with
  | Returned up latency => (up, latency)
  | Raised => (false, None)
  | TimedOut => (false, None)
  end.

Definition set_attr (t : loc) (f : TestResult -> TestResult) : M unit :=
  o <- get_obj t ;; set_obj t (f o).

(** [test.last_seen = v] *)
Definition assign_last_seen (t : loc) (v : string) : M unit :=
  set_attr t (set_last_seen v) ;;; emit (EvLastSeen t v).

Definition or_zero (latency : option Q) : Q :=
  match latency with Some l => l | None => 0%Q end.

(** First loop: mark the current slot as failure for all tests. *)
Definition premark_test (current_index : Z) (test : loc) : M unit :=
  update_history test current_index "X" ;;;
  set_attr test (set_latency (-1)).

Definition premark (m : MultiPing) : M unit :=
  for_each (hosts m) (fun host =>
    for_each (tests host) (premark_test (current_index m))).

(** Second loop: [executor.submit] for every test; [tasks] is the list built
    so far (the future of a task is named by its test). *)
Definition task : Type := Host * loc.

Fixpoint submit_tests (host : Host) (ts : list loc) (tasks : list task)
    : M (list task) :=
  match ts with
  | [] => ret tasks
  | test :: ts' =>
      o <- get_obj test ;;
      if String.eqb (protocol o) "ICMP" then
        emit (EvSubmit test) ;;;
        submit_tests host ts' (tasks ++ [(host, test)])
      else if String.eqb (protocol o) "TCP" then
        emit (EvSubmit test) ;;;
        submit_tests host ts' (tasks ++ [(host, test)])
      else submit_tests host ts' tasks
  end.

Fixpoint submit_hosts (hs : list Host) (tasks : list task) : M (list task) :=
  match hs with
  | [] => ret tasks
  | host :: hs' =>
      tasks' <- submit_tests host (tests host) tasks ;;
      submit_hosts hs' tasks'
  end.

(** Third loop: the body run for one [(host, test, future)]. *)
Definition record_result (env : tick_env) (current_index : Z) (test : loc) : M unit :=
  let (up, latency) := future_result (future_of env test) in
  o <- get_obj test ;;
  if String.eqb (protocol o) "ICMP" then
    if up then
      set_attr test (set_latency (or_zero latency)) ;;;
      update_history test current_index (symbol_for_latency latency) ;;;
      assign_last_seen test ""
    else
      set_attr test (set_latency (-1)) ;;;
      o' <- get_obj test ;;
      (if String.eqb (last_seen o') ""
       then assign_last_seen test ("Last seen: " +:+ strftime env test)
       else ret tt) ;;;
      update_history test current_index "X"
  else if String.eqb (protocol o) "TCP" then
    if up then
      set_attr test (set_latency (or_zero latency)) ;;;
      update_history test current_index (symbol_for_latency latency) ;;;
      assign_last_seen test "" ;;;
      set_attr test (set_service "open")
    else
      set_attr test (set_latency (-1)) ;;;
      o' <- get_obj test ;;
      (if String.eqb (last_seen o') ""
       then assign_last_seen test ("Last seen: " +:+ strftime env test)
       else ret tt) ;;;
      update_history test current_index "X" ;;;
      set_attr test (set_service "closed")
  else ret tt.

Definition process_task (env : tick_env) (current_index : Z) (tk : task) : M unit :=
  let (host, test) := tk in record_result env current_index test.

(** The part of the tick that runs inside [with ThreadPoolExecutor(...)]. *)
Definition dispatch_and_record (env : tick_env) (m : MultiPing) : M unit :=
  tasks <- submit_hosts (hosts m) [] ;;
  for_each tasks (process_task env (current_index m)).

Definition update_tests (env : tick_env) (m : MultiPing) : M unit :=
  premark m ;;;
  dispatch_and_record env m.

(** ** [MultiPing.display_results] and [MultiPing.run]

    Of [display_results] only what can raise is kept: the history string of
    every test is computed; the printed rows are not modelled. *)
Definition display_results (m : MultiPing) : M unit :=
  for_each (hosts m) (fun host =>
    for_each (tests host) (fun test =>
      get_history_string test (current_index m) (history_length m) ;;; ret tt)).

(** [self.current_index -= 1; if self.current_index < 0: self.current_index = self.history_length - 1] *)
Definition advance (m : MultiPing) : MultiPing :=
  let c := current_index m - 1 in
  mkMultiPing (history_length m)
    (if c <? 0 then history_length m - 1 else c) (hosts m).

(** [n] iterations of the [while True] loop of [run]; [env k] holds the inputs
    of iteration [k]. *)
Fixpoint run (n : nat) (env : nat -> tick_env) (m : MultiPing) : M MultiPing :=
  match n with
  | O => ret m
  | S n' =>
      update_tests (env O) m ;;;
      display_results m ;;;
      run n' (fun k => env (S k)) (advance m)
  end.

(** ** Configuration loading

    The document [yaml.safe_load] returns, restricted to the shapes
    [load_config] reads: a [port] is an integer or a string. *)
Inductive port_value :=
| PortInt (n : Z)
| PortStr (s : string).

Record test_cfg := mkTestCfg {
  cfg_protocol : option string;
  cfg_port : option port_value
}.

Record details_cfg := mkDetailsCfg {
  cfg_description : option string;
  cfg_tests : option (list test_cfg)
}.

Record config := mkConfig {
  cfg_hosts : option (list (list (string * details_cfg)));
  cfg_ignore_self : bool
}.

(** [c in s] for a one-character [c]. *)
Fixpoint contains_char (c : ascii) (s : string) : bool :=
  match s with
  | EmptyString => false
  | String a s' => if Ascii.eqb a c then true else contains_char c s'
  end.

(** [s.split(c)] for a one-character separator. *)
Fixpoint split (c : ascii) (s : string) : list string :=
  match s with
  | EmptyString => [EmptyString]
  | String a s' =>
      if Ascii.eqb a c then EmptyString :: split c s'
      else match split c s' with
           | x :: xs => String a x :: xs
           | [] => [String a EmptyString]
           end
  end.

(** [int(s)] for a [str] whose characters are code points below 256, as
    CPython 3.11 converts it: white space around the number is skipped, an
    optional sign follows, then decimal digits with single underscores
    between them, at most [int_max_str_digits] digits.  [None] is
    [ValueError].

    The white space of [int] is tab, line feed, vertical tab, form feed,
    carriage return and space, and the two other characters below 256 that
    are Unicode white space, U+0085 and U+00A0, which [int] first replaces by
    a space; the separators 0x1C to 0x1F are not skipped. *)
Definition is_space (c : ascii) : bool :=
  let n := nat_of_ascii c in
  (((9 <=? n) && (n <=? 13)) || (n =? 32) || (n =? 133) || (n =? 160))%nat.

Fixpoint lstrip (s : string) : string :=
  match s with
  | String c s' => if is_space c then lstrip s' else s
  | EmptyString => EmptyString
  end.

Fixpoint rstrip (s : string) : string :=
  match s with
  | EmptyString => EmptyString
  | String c s' =>
      match rstrip s' with
      | EmptyString => if is_space c then EmptyString else String c EmptyString
      | r => String c r
      end
  end.

Definition digit_of (c : ascii) : option Z :=
  let n := nat_of_ascii c in
  if ((48 <=? n) && (n <=? 57))%nat then Some (Z.of_nat (n - 48)) else None.

Fixpoint parse_digits (s : string) (acc : Z) (after_digit : bool) : option Z :=
  match s with
  | EmptyString => if after_digit then Some acc else None
  | String c s' =>
      match digit_of c with
      | Some d => parse_digits s' (10 * acc + d) true
      | None =>
          if Ascii.eqb c "_"%char && after_digit then parse_digits s' acc false
          else None
      end
  end.

(** The number of digits of a literal, and the default limit
    [sys.get_int_max_str_digits()]. *)
Fixpoint digit_count (s : string) : Z :=
  match s with
  | EmptyString => 0
  | String c s' =>
      match digit_of c with
      | Some _ => 1 + digit_count s'
      | None => digit_count s'
      end
  end.

Definition int_max_str_digits : Z := 4300.

Definition py_int (s : string) : option Z :=
  let literal := rstrip (lstrip s) in
  if int_max_str_digits <? digit_count literal then None
  else
    match literal with
    | String "-" r => option_map Z.opp (parse_digits r 0 false)
    | String "+" r => parse_digits r 0 false
    | r => parse_digits r 0 false
    end.

(** [ipaddress.IPv4Address(ip)] for a string: four octets, each of one to
    three ASCII digits without a leading zero, at most 255.  [false] is
    [AddressValueError]. *)
Fixpoint all_digits (s : string) : bool :=
  match s with
  | EmptyString => true
  | String c s' => match digit_of c with Some _ => all_digits s' | None => false end
  end.

Definition octet_ok (s : string) : bool :=
  match s with
  | EmptyString => false
  | String c r =>
      all_digits s && (String.length s <=? 3)%nat
      && negb (Ascii.eqb c "0"%char && negb (String.eqb r ""))
      && match parse_digits s 0 false with
         | Some v => v <=? 255
         | None => false
         end
  end.

Definition IPv4Address_ok (ip : string) : bool :=
  match split "."%char ip with
  | [a; b; c; d] => octet_ok a && octet_ok b && octet_ok c && octet_ok d
  | _ => false
  end.

(** [Host.__init__] *)
Definition Host_init (clock : loc -> string) (ip description : string)
    (tests : list loc) (history_length : Z) : M Host :=
  if IPv4Address_ok ip then
    tests' <- match tests with
              | [] => t <- TestResult_init clock "ICMP" None history_length ;; ret [t]
              | _ => ret tests
              end ;;
    ret (mkHost ip description tests' history_length)
  else raise (SystemExit (InvalidIP ip)).

(** [for p in range(p, p + n): tests.append(TestResult("TCP", p, history_length))] *)
Fixpoint expand_range (clock : loc -> string) (history_length : Z)
    (p : Z) (n : nat) (tests : list loc) : M (list loc) :=
  match n with
  | O => ret tests
  | S n' =>
      t <- TestResult_init clock "TCP" (Some p) history_length ;;
      expand_range clock history_length (p + 1) n' (tests ++ [t])
  end.

(** The body of [for test in test_list]; [tests] is the list built so far. *)
Definition load_test (clock : loc -> string) (history_length : Z)
    (ip : string) (test : test_cfg) (tests : list loc) : M (list loc) :=
  let protocol := upper (default "ICMP" (cfg_protocol test)) in
  if String.eqb protocol "TCP" then
    match cfg_port test with
    | None => raise (SystemExit (MissingPort ip))
    | Some (PortStr port_val) =>
        if contains_char "-" port_val then
          match split "-" port_val with
          | [start; end_] =>
              match py_int start, py_int end_ with
              | Some a, Some b =>
                  expand_range clock history_length a (Z.to_nat (b + 1 - a)) tests
              | _, _ => raise (SystemExit (BadPortRange port_val ip))
              end
          | _ => raise (SystemExit (BadPortRange port_val ip))
          end
        else
          match py_int port_val with
          | Some port_num =>
              t <- TestResult_init clock "TCP" (Some port_num) history_length ;;
              ret (tests ++ [t])
          | None => raise (SystemExit (BadPort port_val ip))
          end
    | Some (PortInt port_num) =>
        t <- TestResult_init clock "TCP" (Some port_num) history_length ;;
        ret (tests ++ [t])
    end
  else
    t <- TestResult_init clock "ICMP" None history_length ;;
    ret (tests ++ [t]).

Fixpoint load_tests (clock : loc -> string) (history_length : Z)
    (ip : string) (test_list : list test_cfg) (tests : list loc) : M (list loc) :=
  match test_list with
  | [] => ret tests
  | test :: rest =>
      tests' <- load_test clock history_length ip test tests ;;
      load_tests clock history_length ip rest tests'
  end.

(** The body of [for ip, details in host_item.items()]; [hosts] is
    [self.hosts] so far. *)
Definition load_host (clock : loc -> string) (history_length : Z)
    (self_ips : list string) (entry : string * details_cfg) (hosts : list Host)
    : M (list Host) :=
  let (ip, details) := entry in
  if bool_decide (ip ∈ self_ips) then ret hosts
  else
    let description := default ip (cfg_description details) in
    tests <- match cfg_tests details with
             | Some (test :: rest) =>
                 load_tests clock history_length ip (test :: rest) []
             | _ =>
                 t <- TestResult_init clock "ICMP" None history_length ;;
                 ret [t]
             end ;;
    host <- Host_init clock ip description tests history_length ;;
    ret (hosts ++ [host]).

Fixpoint load_host_item (clock : loc -> string) (history_length : Z)
    (self_ips : list string) (host_item : list (string * details_cfg))
    (hosts : list Host) : M (list Host) :=
  match host_item with
  | [] => ret hosts
  | entry :: rest =>
      hosts' <- load_host clock history_length self_ips entry hosts ;;
      load_host_item clock history_length self_ips rest hosts'
  end.

Fixpoint load_host_items (clock : loc -> string) (history_length : Z)
    (self_ips : list string) (items : list (list (string * details_cfg)))
    (hosts : list Host) : M (list Host) :=
  match items with
  | [] => ret hosts
  | host_item :: rest =>
      hosts' <- load_host_item clock history_length self_ips host_item hosts ;;
      load_host_items clock history_length self_ips rest hosts'
  end.

(** [load_config] after the document has been read; [hostname_I] is the
    output of [hostname -I], split. *)
Definition load_config (clock : loc -> string) (history_length : Z)
    (hostname_I : list string) (data : config) : M (list Host) :=
  match cfg_hosts data with
  | None => raise (SystemExit NoHostsKey)
  | Some items =>
      let self_ips := if cfg_ignore_self data then hostname_I else [] in
      load_host_items clock history_length self_ips items []
  end.

(** [MultiPing.__init__] *)
Definition MultiPing_init (clock : loc -> string) (hostname_I : list string)
    (data : config) (history_length : Z) : M MultiPing :=
  hosts <- load_config clock history_length hostname_I data ;;
  ret (mkMultiPing history_length (history_length - 1) hosts).

Definition empty_heap : heap := mkHeap ∅ ∅ [].

(** ** Notions the properties are stated with *)

(** The test objects of an instance, in the order of the loops of
    [update_tests]. *)
Definition all_tests (m : MultiPing) : list loc := flat_map tests (hosts m).

(** [t] is a [TestResult] as the constructor and [load_config] make them: an
    ICMP or TCP test whose history is a list of [n] symbols. *)
Definition good_at (n : nat) (s : heap) (t : loc) : Prop :=
  exists o l,
    objs s !! t = Some o /\
    (protocol o = "ICMP" \/ protocol o = "TCP") /\
    lists s !! history o = Some l /\
    length l = n.

(** No two of the tests [ts] share a history list. *)
Definition own_histories (ts : list loc) (s : heap) : Prop :=
  forall t1 t2 o1 o2,
    t1 ∈ ts -> t2 ∈ ts ->
    objs s !! t1 = Some o1 -> objs s !! t2 = Some o2 ->
    history o1 = history o2 -> t1 = t2.

Record tests_ok (n : nat) (ts : list loc) (s : heap) : Prop := mkTestsOk {
  ok_nodup : NoDup ts;
  ok_good : forall t, t ∈ ts -> good_at n s t;
  ok_own : own_histories ts s
}.

(** The state between two ticks. *)
Record wf (m : MultiPing) (s : heap) : Prop := mkWf {
  wf_index : 0 <= current_index m < history_length m;
  wf_tests : tests_ok (Z.to_nat (history_length m)) (all_tests m) s
}.

(** The writes into the list [b] among the events [tr]. *)
Definition writes_to (b : loc) (tr : list event) : list (Z * string) :=
  flat_map (fun e => match e with
                     | EvWrite b' i x => if Nat.eqb b' b then [(i, x)] else []
                     | _ => []
                     end) tr.

(** The non-empty strings assigned to [last_seen] of [t] among [tr]. *)
Definition stamps_of (t : loc) (tr : list event) : list string :=
  flat_map (fun e => match e with
                     | EvLastSeen t' v =>
                         if Nat.eqb t' t && negb (String.eqb v "") then [v] else []
                     | _ => []
                     end) tr.

(** The history string as the specification words it: the symbols at
    [(current_index - i + N) mod N] for [i = 0 .. N-1], concatenated. *)
Definition concat_strings (l : list string) : string :=
  foldr String.append "" l.

Definition render_spec (l : list string) (current_index N : Z) : string :=
  concat_strings
    (map (fun i : nat =>
            nth (Z.to_nat ((current_index - Z.of_nat i + N) `mod` N)) l "")
         (seq 0 (Z.to_nat N))).

(** What the third loop leaves in a test object, in its history slot and in
    the log, for the result [r] of its future. *)
Definition recorded (r : bool * option Q) (now : string) (o : TestResult)
    : TestResult :=
  let tcp := String.eqb (protocol o) "TCP" in
  if fst r then
    mkTestResult (protocol o) (port o) (history o) (or_zero (snd r)) ""
      (if tcp then "open" else service o)
  else
    mkTestResult (protocol o) (port o) (history o) (-1)
      (if String.eqb (last_seen o) "" then "Last seen: " +:+ now else last_seen o)
      (if tcp then "closed" else service o).

Definition recorded_symbol (r : bool * option Q) : string :=
  if fst r then symbol_for_latency (snd r) else "X".

Definition recorded_events (r : bool * option Q) (now : string)
    (current_index : Z) (t : loc) (o : TestResult) : list event :=
  if fst r then
    [EvWrite (history o) current_index (symbol_for_latency (snd r)); EvLastSeen t ""]
  else
    (if String.eqb (last_seen o) ""
     then [EvLastSeen t ("Last seen: " +:+ now)] else [])
    ++ [EvWrite (history o) current_index "X"].

(** What a loop over test objects did between the heaps [s] and [s'], when
    its body replaces the object of a test [t] by [fo t o], its history list
    [l] by [fl t l] and appends the events [fe t o]. *)
Definition events_of (fe : loc -> TestResult -> list event)
    (s : heap) (ts : list loc) : list event :=
  flat_map (fun t => match objs s !! t with
                     | Some o => fe t o
                     | None => []
                     end) ts.

Record after (fo : loc -> TestResult -> TestResult)
    (fl : loc -> list string -> list string)
    (fe : loc -> TestResult -> list event)
    (ts : list loc) (s s' : heap) : Prop := mkAfter {
  after_obj : forall t o,
    t ∈ ts -> objs s !! t = Some o -> objs s' !! t = Some (fo t o);
  after_obj_other : forall t, t ∉ ts -> objs s' !! t = objs s !! t;
  after_list : forall t o l,
    t ∈ ts -> objs s !! t = Some o -> lists s !! history o = Some l ->
    lists s' !! history o = Some (fl t l);
  after_list_other : forall b,
    (forall t o, t ∈ ts -> objs s !! t = Some o -> history o <> b) ->
    lists s' !! b = lists s !! b;
  after_log : log s' = log s ++ events_of fe s ts
}.

(** The result the third loop obtains for the future of [t]. *)
Definition result_of (env : tick_env) (t : loc) : bool * option Q :=
  future_result (future_of env t).

(** The effect of the first loop of [update_tests] and of its third loop. *)
Definition after_premark (cur : Z) : list loc -> heap -> heap -> Prop :=
  after (fun _ => set_latency (-1))
        (fun _ => <[Z.to_nat cur := "X"]>)
        (fun _ o => [EvWrite (history o) cur "X"]).

Definition after_record (env : tick_env) (cur : Z) : list loc -> heap -> heap -> Prop :=
  after (fun t => recorded (result_of env t) (strftime env t))
        (fun t => <[Z.to_nat cur := recorded_symbol (result_of env t)]>)
        (fun t => recorded_events (result_of env t) (strftime env t) cur t).

(** The heap after the submissions of the second loop. *)
Definition submitted (ts : list loc) (s : heap) : heap :=
  mkHeap (objs s) (lists s) (log s ++ map EvSubmit ts).

(** The effect of one [update_tests] between the heaps [s] and [s']. *)
Record after_tick (env : tick_env) (m : MultiPing) (s s' : heap) : Prop := mkAfterTick {
  tick_obj : forall t o,
    t ∈ all_tests m -> objs s !! t = Some o ->
    objs s' !! t = Some (recorded (result_of env t) (strftime env t) o);
  tick_obj_other : forall t, t ∉ all_tests m -> objs s' !! t = objs s !! t;
  tick_list : forall t o l,
    t ∈ all_tests m -> objs s !! t = Some o -> lists s !! history o = Some l ->
    lists s' !! history o =
      Some (<[Z.to_nat (current_index m) := recorded_symbol (result_of env t)]> l);
  tick_list_other : forall b,
    (forall t o, t ∈ all_tests m -> objs s !! t = Some o -> history o <> b) ->
    lists s' !! b = lists s !! b;
  tick_log :
    log s' =
      log s
      ++ events_of (fun _ o => [EvWrite (history o) (current_index m) "X"]) s (all_tests m)
      ++ map EvSubmit (all_tests m)
      ++ events_of (fun t => recorded_events (result_of env t) (strftime env t)
                               (current_index m) t) s (all_tests m)
}.

(** An event that, if it is a write, is a write at index [i]. *)
Definition writes_at (P : Z -> Prop) (e : event) : Prop :=
  match e with
  | EvWrite _ i _ => P i
  | _ => True
  end.

(** [t] is a test as [TestResult.__init__] leaves it when it reads the time
    [clock t]. *)
Definition constructed (clock : loc -> string) (N : Z) (s : heap) (t : loc) : Prop :=
  exists o,
    objs s !! t = Some o /\
    latency o = (-1)%Q /\
    last_seen o = "Last seen: " +:+ clock t /\
    service o = "" /\
    lists s !! history o = Some (repeat "." (Z.to_nat N)).

(** The tests [ts] built so far by [load_config]. *)
Record pool (clock : loc -> string) (N : Z) (ts : list loc) (s : heap) : Prop := mkPool {
  pool_ok : tests_ok (Z.to_nat N) ts s;
  pool_new : forall t, t ∈ ts -> constructed clock N s t
}.

(** [s'] has the objects and lists of [s], unchanged, and the same log. *)
Record extends (s s' : heap) : Prop := mkExtends {
  ext_objs : forall t o, objs s !! t = Some o -> objs s' !! t = Some o;
  ext_lists : forall b l, lists s !! b = Some l -> lists s' !! b = Some l;
  ext_log : log s' = log s
}.

(** ** A small installation

    Two hosts: one with a TCP test on the ports 8000 to 8002, one without
    tests; histories of three symbols. *)
Definition example_config : config :=
  mkConfig
    (Some [[("10.0.0.1",
             mkDetailsCfg None
               (Some [mkTestCfg (Some "tcp") (Some (PortStr "8000-8002"))]))];
           [("10.0.0.2", mkDetailsCfg (Some "gateway") None)]])
    false.

Definition example_clock (t : loc) : string := "Mon Jan  1 00:00:00 2024".

Definition example_start : result (MultiPing * heap) :=
  MultiPing_init example_clock [] example_config 3 empty_heap.

Definition example_m : MultiPing :=
  mkMultiPing 3 2
    [mkHost "10.0.0.1" "10.0.0.1" [0; 1; 2]%nat 3;
     mkHost "10.0.0.2" "gateway" [3%nat] 3].

Definition example_test (protocol : string) (port : option Z) (h : loc) : TestResult :=
  mkTestResult protocol port h (-1) ("Last seen: " +:+ example_clock h) "".

Definition example_heap : heap :=
  mkHeap
    (list_to_map [(0%nat, example_test "TCP" (Some 8000) 0);
                  (1%nat, example_test "TCP" (Some 8001) 1);
                  (2%nat, example_test "TCP" (Some 8002) 2);
                  (3%nat, example_test "ICMP" None 3)])
    (list_to_map [(0%nat, ["."; "."; "."]); (1%nat, ["."; "."; "."]);
                  (2%nat, ["."; "."; "."]); (3%nat, ["."; "."; "."])])
    [].

(** A tick in which every future raises, and one in which every probe
    answers in 5 ms. *)
Definition env_down : tick_env :=
  mkTickEnv (fun _ => Raised) (fun _ => "Mon Jan  1 00:00:07 2024").

Definition env_up : tick_env :=
  mkTickEnv (fun _ => Returned true (Some 5%Q)) (fun _ => "Mon Jan  1 00:00:09 2024").

(** The same installation after a tick in which every probe answered; the
    log is left out. *)
Definition example_test_up (protocol : string) (port : option Z) (h : loc)
    (service : string) : TestResult :=
  mkTestResult protocol port h 5 "" service.

Definition example_heap_up : heap :=
  mkHeap
    (list_to_map [(0%nat, example_test_up "TCP" (Some 8000) 0 "open");
                  (1%nat, example_test_up "TCP" (Some 8001) 1 "open");
                  (2%nat, example_test_up "TCP" (Some 8002) 2 "open");
                  (3%nat, example_test_up "ICMP" None 3 "")])
    (list_to_map [(0%nat, ["."; "."; "."]); (1%nat, ["."; "."; "."]);
                  (2%nat, ["."; "."; "."]); (3%nat, ["."; "."; "."])])
    [].

(** Two failing ticks, then successful ones. *)
Definition env_streak (i : nat) : tick_env :=
  if (i <? 2)%nat then env_down else env_up.

(** One test whose history holds the letters A to E. *)
Definition letters_heap : heap :=
  mkHeap {[0%nat := example_test "ICMP" None 0]}
         {[0%nat := ["A"; "B"; "C"; "D"; "E"]]} [].

(** A host whose only test has an inverted port range. *)
Definition inverted_config : config :=
  mkConfig
    (Some [[("10.0.0.3",
             mkDetailsCfg None
               (Some [mkTestCfg (Some "TCP") (Some (PortStr "8002-8000"))]))]])
    false.

(** ** Notions for the further properties *)

(** A TCP test has a port, an ICMP test has none. *)
Definition port_matches (o : TestResult) : Prop :=
  (protocol o = "TCP" /\ exists p, port o = Some p) \/
  (protocol o = "ICMP" /\ port o = None).

(** A result that is a value or a configuration error. *)
Definition ok_or_exit {A} (r : result A) : Prop :=
  match r with
  | Ok _ => True
  | Raise (SystemExit _) => True
  | Raise _ => False
  end.

(** The host [load_config] makes of a document entry. *)
Definition host_of_entry (N : Z) (entry : string * details_cfg) (h : Host) : Prop :=
  ip h = fst entry /\
  description h = default (fst entry) (cfg_description (snd entry)) /\
  host_history_length h = N /\
  tests h <> [] /\
  IPv4Address_ok (fst entry) = true.

(** The entries of a document that are not skipped. *)
Definition kept_entries (self_ips : list string)
    (entries : list (string * details_cfg)) : list (string * details_cfg) :=
  filter (fun e => fst e ∉ self_ips) entries.

(** A document with a malformed address in its second entry. *)
Definition bad_ip_config : config :=
  mkConfig
    (Some [[("10.0.0.1", mkDetailsCfg None None)];
           [("10.0.0.256", mkDetailsCfg None None)]])
    false.

(** The number of occurrences of a character. *)
Fixpoint count_char (c : ascii) (s : string) : nat :=
  match s with
  | EmptyString => O
  | String a s' => if Ascii.eqb a c then S (count_char c s') else count_char c s'
  end.

(** ** [format_status]

    [re.sub(r'\x1B\[[0-?]*[ -/]*[@-~]', '', s)]: at each position, from the
    left, the pattern is tried; a match is dropped and the search goes on
    behind it, otherwise the character is kept.  The three classes of the
    pattern are disjoint, so the greedy match of a class is its maximal run
    and giving characters back never produces a match. *)
Definition in_range (lo hi : nat) (c : ascii) : bool :=
  let n := nat_of_ascii c in ((lo <=? n) && (n <=? hi))%nat.

Fixpoint skip_while (p : ascii -> bool) (s : string) : string :=
  match s with
  | String c r => if p c then skip_while p r else s
  | EmptyString => EmptyString
  end.

(** The rest of [s] behind a match of the pattern at its start. *)
Definition match_csi (s : string) : option string :=
  match s with
  | String e r0 =>
      if Ascii.eqb e "027" then
        match r0 with
        | String b r =>
            if Ascii.eqb b "[" then
              match skip_while (in_range 32 47) (skip_while (in_range 48 63) r) with
              | String c rest => if in_range 64 126 c then Some rest else None
              | EmptyString => None
              end
            else None
        | EmptyString => None
        end
      else None
  | EmptyString => None
  end.

(** [fuel] bounds the number of positions visited; the length of [s] is
    enough. *)
Fixpoint sub_csi (fuel : nat) (s : string) : string :=
  match fuel with
  | O => s
  | S fuel' =>
      match s with
      | EmptyString => EmptyString
      | String c r =>
          match match_csi s with
          | Some rest => sub_csi fuel' rest
          | None => String c (sub_csi fuel' r)
          end
      end
  end.

Definition strip_ansi (s : string) : string := sub_csi (String.length s) s.

(** [" " * n] *)
Fixpoint spaces (n : nat) : string :=
  match n with
  | O => EmptyString
  | S n' => String " " (spaces n')
  end.

Definition format_status (s : string) (width : Z) : string :=
  let clean := strip_ansi s in
  let padding := width - Z.of_nat (String.length clean) in
  if 0 <? padding then spaces (Z.to_nat padding) +:+ s else s.

(** * Properties *)

(** ** The symbol classifier *)

Lemma Qltb_lt (x y : Q) : Qltb x y = true <-> (x < y)%Q.
Proof.
  unfold Qltb. rewrite negb_true_iff.
  split.
  - intros H. apply Qnot_le_lt. intros Hle.
    apply Qle_bool_iff in Hle. congruence.
  - intros H. destruct (Qle_bool y x) eqn:E; [|reflexivity].
    apply Qle_bool_iff in E. exfalso. exact (Qlt_not_le _ _ H E).
Qed.

Lemma Qltb_ge (x y : Q) : Qltb x y = false <-> (y <= x)%Q.
Proof.
  unfold Qltb. rewrite negb_false_iff. apply Qle_bool_iff.
Qed.

(** C1, as amended: [symbol_for_latency] is a function of the latency alone
    which returns "." for an absent latency, "." below 10 ms, the emphasised
    "o" from 10 ms up to 100 ms and "O" from 100 ms on; the three symbols are
    pairwise different, the failure mark "X" is none of them, and the symbol
    of an absent latency is the symbol of a fast one. *)
Theorem symbol_for_latency_classes (latency : option Q) :
  match latency with
  | None => symbol_for_latency latency = "."
  | Some l =>
      ((l < 10)%Q -> symbol_for_latency latency = ".") /\
      ((10 <= l)%Q -> (l < 100)%Q -> symbol_for_latency latency = MEDIUM) /\
      ((100 <= l)%Q -> symbol_for_latency latency = "O")
  end /\
  symbol_for_latency latency <> "X" /\
  "." <> MEDIUM /\ MEDIUM <> "O" /\ "." <> "O" /\
  (forall l, (l < 10)%Q -> symbol_for_latency None = symbol_for_latency (Some l)).
Proof.
  split; [|split; [|repeat split; try (intros H; cbv in H; discriminate H)]].
  - destruct latency as [l|]; [|reflexivity].
    unfold symbol_for_latency.
    destruct (Qltb l 10) eqn:E10; destruct (Qltb l 100) eqn:E100;
      repeat split; intros; try reflexivity; exfalso;
      repeat match goal with
             | E : Qltb _ _ = true |- _ => apply Qltb_lt in E
             | E : Qltb _ _ = false |- _ => apply Qltb_ge in E
             end; lra.
  - unfold symbol_for_latency.
    destruct latency as [l|]; [|intros H; discriminate H].
    destruct (Qltb l 10); [intros H; discriminate H|].
    destruct (Qltb l 100); intros H; cbv in H; discriminate H.
  - intros l Hl. simpl. apply Qltb_lt in Hl. rewrite Hl. reflexivity.
Qed.

Lemma symbol_for_latency_classes_witness :
  symbol_for_latency (Some 50%Q) = MEDIUM /\
  symbol_for_latency None = symbol_for_latency (Some 5%Q).
Proof.
  pose proof (symbol_for_latency_classes (Some 50%Q)) as [(_ & Hm & _) (_ & _ & _ & _ & Hf)].
  split.
  - apply Hm; unfold Qle, Qlt; simpl; lia.
  - apply (Hf 5%Q). reflexivity.
Defined.

(** C1, as stated, fails: 5 ms is a fast latency, and its symbol is the
    symbol of an absent latency. *)
Lemma symbol_down_is_fast :
  (5 < 10)%Q /\ ~ symbol_for_latency None <> symbol_for_latency (Some 5%Q).
Proof.
  split; [reflexivity|]. intros H. apply H. reflexivity.
Qed.

(** ** Running the monad *)

Lemma run_bind {A B} (c : M A) (k : A -> M B) (s s' : heap) (a : A) :
  c s = Ok (a, s') -> bind c k s = k a s'.
Proof. intros H. unfold bind. rewrite H. reflexivity. Qed.

Lemma run_bind_raise {A B} (c : M A) (k : A -> M B) (s : heap) (e : exn) :
  c s = Raise e -> bind c k s = Raise e.
Proof. intros H. unfold bind. rewrite H. reflexivity. Qed.

Lemma run_bind_assoc {A B C} (c : M A) (f : A -> M B) (g : B -> M C) (s : heap) :
  bind (bind c f) g s = bind c (fun a => bind (f a) g) s.
Proof. unfold bind. destruct (c s) as [[a s']|e]; reflexivity. Qed.

Lemma run_get_obj (t : loc) (o : TestResult) (s : heap) :
  objs s !! t = Some o -> get_obj t s = Ok (o, s).
Proof. intros H. unfold get_obj. rewrite H. reflexivity. Qed.

Lemma run_get_list (b : loc) (l : list string) (s : heap) :
  lists s !! b = Some l -> get_list b s = Ok (l, s).
Proof. intros H. unfold get_list. rewrite H. reflexivity. Qed.

Lemma run_set_attr (t : loc) (f : TestResult -> TestResult) (o : TestResult) (s : heap) :
  objs s !! t = Some o ->
  set_attr t f s = Ok (tt, mkHeap (<[t := f o]> (objs s)) (lists s) (log s)).
Proof.
  intros H. unfold set_attr. rewrite (run_bind _ _ _ _ _ (run_get_obj _ _ _ H)).
  reflexivity.
Qed.

Lemma py_index_in_range (n : nat) (i : Z) :
  0 <= i < Z.of_nat n -> py_index n i = Some (Z.to_nat i).
Proof.
  intros [H0 H1]. unfold py_index.
  apply Z.leb_le in H0. apply Z.ltb_lt in H1. rewrite H0, H1. reflexivity.
Qed.

Lemma run_update_history (t : loc) (index : Z) (symbol : string)
    (o : TestResult) (l : list string) (s : heap) :
  objs s !! t = Some o ->
  lists s !! history o = Some l ->
  0 <= index < Z.of_nat (length l) ->
  update_history t index symbol s =
    Ok (tt, mkHeap (objs s)
              (<[history o := <[Z.to_nat index := symbol]> l]> (lists s))
              (log s ++ [EvWrite (history o) index symbol])).
Proof.
  intros Ho Hl Hi. unfold update_history.
  rewrite (run_bind _ _ _ _ _ (run_get_obj _ _ _ Ho)).
  rewrite (run_bind _ _ _ _ _ (run_get_list _ _ _ Hl)).
  rewrite (py_index_in_range _ _ Hi). reflexivity.
Qed.

Lemma run_premark_test (cur : Z) (t : loc) (o : TestResult) (l : list string) (s : heap) :
  objs s !! t = Some o ->
  lists s !! history o = Some l ->
  0 <= cur < Z.of_nat (length l) ->
  premark_test cur t s =
    Ok (tt, mkHeap (<[t := set_latency (-1) o]> (objs s))
              (<[history o := <[Z.to_nat cur := "X"]> l]> (lists s))
              (log s ++ [EvWrite (history o) cur "X"])).
Proof.
  intros Ho Hl Hi. unfold premark_test.
  rewrite (run_bind _ _ _ _ _ (run_update_history _ _ _ _ _ _ Ho Hl Hi)).
  rewrite (run_set_attr _ _ o); [reflexivity | exact Ho].
Qed.

Lemma run_record_result (env : tick_env) (cur : Z) (t : loc) (o : TestResult)
    (l : list string) (s : heap) :
  objs s !! t = Some o ->
  protocol o = "ICMP" \/ protocol o = "TCP" ->
  lists s !! history o = Some l ->
  0 <= cur < Z.of_nat (length l) ->
  let r := future_result (future_of env t) in
  record_result env cur t s =
    Ok (tt, mkHeap (<[t := recorded r (strftime env t) o]> (objs s))
              (<[history o := <[Z.to_nat cur := recorded_symbol r]> l]> (lists s))
              (log s ++ recorded_events r (strftime env t) cur t o)).
Proof.
  intros Ho Hp Hl Hi r. unfold record_result. fold r.
  destruct r as [up latency].
  rewrite (run_bind _ _ _ _ _ (run_get_obj _ _ _ Ho)).
  unfold recorded, recorded_symbol, recorded_events, assign_last_seen; simpl fst; simpl snd.
  destruct Hp as [Hp|Hp]; rewrite Hp;
    [ change (String.eqb "ICMP" "ICMP") with true
    | change (String.eqb "TCP" "ICMP") with false;
      change (String.eqb "TCP" "TCP") with true ];
    cbv iota; destruct up;
    destruct (String.eqb (last_seen o) "") eqn:E.
  all: repeat first
    [ rewrite run_bind_assoc
    | erewrite run_bind;
        [| first [ eapply run_set_attr | eapply run_update_history | eapply run_get_obj
                 | reflexivity ];
           simpl; rewrite ?lookup_insert_eq; eauto ]
    | progress (simpl; rewrite ?E) ].
  all: try (erewrite run_set_attr; [| simpl; rewrite ?lookup_insert_eq; eauto ]).
  all: try (erewrite run_update_history; [| simpl; rewrite ?lookup_insert_eq; eauto .. ]).
  all: unfold emit, ret, set_latency, set_last_seen, set_service; simpl;
    rewrite ?insert_insert_eq, <- ?app_assoc, ?Hp; simpl.
  all: reflexivity.
Qed.

(** ** Loops over test objects

    A loop whose body rewrites the attributes of its test, one history list
    and appends to the log, run over tests that own their histories. *)

Lemma for_each_app {A} (l1 l2 : list A) (body : A -> M unit) (s : heap) :
  for_each (l1 ++ l2) body s = (for_each l1 body ;;; for_each l2 body) s.
Proof.
  revert s. induction l1 as [|x l1 IH]; intros s; simpl.
  - reflexivity.
  - rewrite run_bind_assoc. destruct (body x s) as [[[] s']|e] eqn:E.
    + rewrite !(run_bind _ _ _ _ _ E). apply IH.
    + rewrite !(run_bind_raise _ _ _ _ E). reflexivity.
Qed.

Lemma for_each_nested {A B} (l : list A) (f : A -> list B) (body : B -> M unit) (s : heap) :
  for_each l (fun x => for_each (f x) body) s = for_each (flat_map f l) body s.
Proof.
  revert s. induction l as [|x l IH]; intros s; simpl.
  - reflexivity.
  - rewrite for_each_app.
    destruct (for_each (f x) body s) as [[[] s']|e] eqn:E.
    + rewrite !(run_bind _ _ _ _ _ E). apply IH.
    + rewrite !(run_bind_raise _ _ _ _ E). reflexivity.
Qed.

Lemma for_each_map {A B} (l : list A) (f : A -> B) (body : B -> M unit) (s : heap) :
  for_each (map f l) body s = for_each l (fun x => body (f x)) s.
Proof.
  revert s. induction l as [|x l IH]; intros s; simpl.
  - reflexivity.
  - destruct (body (f x) s) as [[[] s']|e] eqn:E.
    + rewrite !(run_bind _ _ _ _ _ E). apply IH.
    + rewrite !(run_bind_raise _ _ _ _ E). reflexivity.
Qed.

Section local_loops.
Variable n : nat.
Variable body : loc -> M unit.
Variable fo : loc -> TestResult -> TestResult.
Variable fl : loc -> list string -> list string.
Variable fe : loc -> TestResult -> list event.

Hypothesis fo_protocol : forall t o, protocol (fo t o) = protocol o.
Hypothesis fo_history : forall t o, history (fo t o) = history o.
Hypothesis fl_length : forall t l, length (fl t l) = length l.
Hypothesis body_run : forall t o l s,
  objs s !! t = Some o ->
  protocol o = "ICMP" \/ protocol o = "TCP" ->
  lists s !! history o = Some l ->
  length l = n ->
  body t s = Ok (tt, mkHeap (<[t := fo t o]> (objs s))
                       (<[history o := fl t l]> (lists s))
                       (log s ++ fe t o)).

Lemma tests_ok_step (t : loc) (ts : list loc) (o : TestResult) (l : list string)
    (s : heap) (lg : list event) :
  tests_ok n (t :: ts) s ->
  objs s !! t = Some o ->
  lists s !! history o = Some l ->
  tests_ok n ts (mkHeap (<[t := fo t o]> (objs s))
                   (<[history o := fl t l]> (lists s)) lg).
Proof.
  intros [Hnd Hgood Hown] Ho Hl.
  apply NoDup_cons in Hnd as [Hnotin Hnd].
  assert (Hne : forall t', t' ∈ ts -> t' <> t) by (intros t' Hin ->; contradiction).
  split.
  - exact Hnd.
  - intros t' Hin.
    destruct (Hgood t') as (o' & l' & Ho' & Hp' & Hl' & Hlen'); [set_solver|].
    exists o', l'. simpl.
    rewrite lookup_insert_ne by (apply not_eq_sym, Hne, Hin).
    rewrite lookup_insert_ne; [auto|].
    intros Heq. apply (Hne t' Hin).
    apply (Hown t' t o' o); [set_solver | set_solver | assumption | assumption | congruence].
  - intros t1 t2 o1 o2 H1 H2. simpl.
    rewrite !lookup_insert_ne by (apply not_eq_sym, Hne; assumption).
    intros. apply (Hown t1 t2 o1 o2); [set_solver | set_solver | assumption ..].
Qed.

Lemma events_of_ext (s s' : heap) (ts : list loc) :
  (forall t, t ∈ ts -> objs s' !! t = objs s !! t) ->
  events_of fe s' ts = events_of fe s ts.
Proof.
  induction ts as [|t ts IH]; intros H; simpl; [reflexivity|].
  rewrite H by set_solver. f_equal. apply IH. intros; apply H; set_solver.
Qed.

Lemma for_each_local (ts : list loc) :
  forall s, tests_ok n ts s ->
  exists s', for_each ts body s = Ok (tt, s') /\ after fo fl fe ts s s'.
Proof.
  induction ts as [|t ts IH]; intros s Hok.
  - exists s. split; [reflexivity|].
    split; simpl; intros; try set_solver. rewrite app_nil_r. reflexivity.
  - destruct (ok_good _ _ _ Hok t) as (o & l & Ho & Hp & Hl & Hlen); [set_solver|].
    pose proof (tests_ok_step t ts o l s (log s ++ fe t o) Hok Ho Hl) as Hok1.
    destruct (IH _ Hok1) as (s' & Hrun & Haft).
    exists s'. split.
    { simpl. rewrite (run_bind _ _ _ _ _ (body_run t o l s Ho Hp Hl Hlen)). exact Hrun. }
    destruct Hok as [Hnd Hgood Hown].
    apply NoDup_cons in Hnd as [Hnotin Hnd].
    destruct Haft as [A1 A2 A3 A4 A5]. simpl in *.
    assert (Hsep : forall t' o', t' ∈ ts -> objs s !! t' = Some o' ->
                                 history o' <> history o).
    { intros t' o' Hin Ho' Heq. apply Hnotin.
      rewrite <- (Hown t' t o' o); [assumption | set_solver | set_solver | assumption ..]. }
    split.
    + intros t0 o0 Hin Ho0. apply elem_of_cons in Hin as [->|Hin].
      * rewrite A2 by assumption. rewrite lookup_insert_eq. congruence.
      * apply A1; [assumption|]. rewrite lookup_insert_ne; [assumption|].
        intros ->. contradiction.
    + intros t0 Hnin. rewrite A2 by set_solver.
      apply lookup_insert_ne. set_solver.
    + intros t0 o0 l0 Hin Ho0 Hl0. apply elem_of_cons in Hin as [->|Hin].
      * assert (o0 = o) by congruence. subst o0.
        assert (l0 = l) by congruence. subst l0.
        rewrite A4; [apply lookup_insert_eq|].
        intros t' o' Hin'. rewrite lookup_insert_ne by (intros ->; contradiction).
        intros Ho'. apply (Hsep t' o' Hin' Ho').
      * assert (t0 <> t) by (intros ->; contradiction).
        apply (A3 t0 o0 l0 Hin).
        -- rewrite lookup_insert_ne; [assumption | congruence].
        -- rewrite lookup_insert_ne; [assumption|].
           apply not_eq_sym. apply (Hsep t0 o0 Hin Ho0).
    + intros b Hb. rewrite A4.
      * apply lookup_insert_ne. apply (Hb t o); [set_solver | assumption].
      * intros t' o' Hin'. rewrite lookup_insert_ne by (intros ->; contradiction).
        intros Ho'. apply (Hb t' o'); [set_solver | assumption].
    + rewrite A5. unfold events_of at 2. simpl. rewrite Ho.
      rewrite <- app_assoc. do 2 f_equal.
      apply events_of_ext. intros t' Hin'. simpl.
      apply lookup_insert_ne. intros ->. contradiction.
Qed.

Lemma after_tests_ok (ts : list loc) (s s' : heap) :
  tests_ok n ts s -> after fo fl fe ts s s' -> tests_ok n ts s'.
Proof.
  intros [Hnd Hgood Hown] [A1 A2 A3 A4 A5]. split.
  - exact Hnd.
  - intros t Hin. destruct (Hgood t Hin) as (o & l & Ho & Hp & Hl & Hlen).
    exists (fo t o), (fl t l). rewrite fo_protocol, fo_history, fl_length.
    split; [apply A1; assumption|].
    split; [assumption|].
    split; [apply (A3 t o l); assumption | assumption].
  - intros t1 t2 o1 o2 H1 H2 Ho1 Ho2 Heq.
    destruct (Hgood t1 H1) as (p1 & l1 & Hp1 & _).
    destruct (Hgood t2 H2) as (p2 & l2 & Hp2 & _).
    rewrite (A1 _ _ H1 Hp1) in Ho1. rewrite (A1 _ _ H2 Hp2) in Ho2.
    apply (Hown t1 t2 p1 p2); try assumption.
    assert (o1 = fo t1 p1) by congruence. assert (o2 = fo t2 p2) by congruence.
    subst. rewrite !fo_history in Heq. exact Heq.
Qed.
End local_loops.

(** ** The three loops of [update_tests] *)

Lemma tests_ok_log (n : nat) (ts : list loc) (s : heap) (lg : list event) :
  tests_ok n ts s -> tests_ok n ts (mkHeap (objs s) (lists s) lg).
Proof. intros [H1 H2 H3]. split; assumption. Qed.

Lemma premark_run (m : MultiPing) (s : heap) :
  wf m s ->
  exists s1, premark m s = Ok (tt, s1) /\
             after_premark (current_index m) (all_tests m) s s1 /\
             wf m s1.
Proof.
  intros [Hi Hok]. unfold premark. rewrite for_each_nested. fold (all_tests m).
  destruct (for_each_local (Z.to_nat (history_length m))
              (premark_test (current_index m))
              (fun _ => set_latency (-1))
              (fun _ => <[Z.to_nat (current_index m) := "X"]>)
              (fun _ o => [EvWrite (history o) (current_index m) "X"]))
    with (ts := all_tests m) (s := s) as (s1 & Hrun & Haft); try assumption.
  - reflexivity.
  - reflexivity.
  - intros. apply length_insert.
  - intros t o l s0 Ho Hp Hl Hlen. apply run_premark_test; try assumption. lia.
  - exists s1. split; [assumption|]. split; [assumption|].
    split; [assumption|].
    eapply after_tests_ok; [ | | | eassumption | eassumption ].
    + reflexivity.
    + reflexivity.
    + intros. apply length_insert.
Qed.

Lemma submit_tests_run (host : Host) (ts : list loc) :
  forall (tasks : list task) (s : heap),
    (forall t, t ∈ ts ->
       exists o, objs s !! t = Some o /\ (protocol o = "ICMP" \/ protocol o = "TCP")) ->
    submit_tests host ts tasks s =
      Ok (tasks ++ map (pair host) ts, submitted ts s).
Proof.
  induction ts as [|t ts IH]; intros tasks s Hp; simpl.
  - unfold ret, submitted. simpl. rewrite !app_nil_r. destruct s; reflexivity.
  - destruct (Hp t) as (o & Ho & Hpo); [set_solver|].
    rewrite (run_bind _ _ _ _ _ (run_get_obj _ _ _ Ho)).
    assert (Hrest :
      (emit (EvSubmit t) ;;; submit_tests host ts (tasks ++ [(host, t)])) s =
      Ok (tasks ++ (host, t) :: map (pair host) ts, submitted (t :: ts) s)).
    { unfold bind, emit. rewrite IH.
      - unfold submitted. simpl. rewrite <- !app_assoc. reflexivity.
      - intros t' Hin. simpl. apply Hp. set_solver. }
    destruct Hpo as [E|E]; rewrite E.
    + change (String.eqb "ICMP" "ICMP") with true. cbv iota. exact Hrest.
    + change (String.eqb "TCP" "ICMP") with false.
      change (String.eqb "TCP" "TCP") with true. cbv iota. exact Hrest.
Qed.

Lemma submit_hosts_run (hs : list Host) :
  forall (tasks : list task) (s : heap),
    (forall t, t ∈ flat_map tests hs ->
       exists o, objs s !! t = Some o /\ (protocol o = "ICMP" \/ protocol o = "TCP")) ->
    submit_hosts hs tasks s =
      Ok (tasks ++ flat_map (fun h => map (pair h) (tests h)) hs,
          submitted (flat_map tests hs) s).
Proof.
  induction hs as [|h hs IH]; intros tasks s Hp; simpl.
  - unfold ret, submitted. simpl. rewrite !app_nil_r. destruct s; reflexivity.
  - erewrite run_bind; [| apply submit_tests_run; intros; apply Hp; simpl; set_solver].
    rewrite IH.
    + unfold submitted. simpl. rewrite map_app, <- !app_assoc. reflexivity.
    + intros t Hin. simpl. apply Hp. simpl. set_solver.
Qed.

Lemma for_each_tasks (env : tick_env) (cur : Z) (hs : list Host) (s : heap) :
  for_each (flat_map (fun h => map (pair h) (tests h)) hs) (process_task env cur) s =
  for_each (flat_map tests hs) (record_result env cur) s.
Proof.
  revert s. induction hs as [|h hs IH]; intros s; simpl; [reflexivity|].
  rewrite !for_each_app.
  assert (E0 : for_each (map (pair h) (tests h)) (process_task env cur) s =
               for_each (tests h) (record_result env cur) s)
    by (rewrite for_each_map; reflexivity).
  destruct (for_each (tests h) (record_result env cur) s) as [[[] s']|e] eqn:E.
  - rewrite (run_bind _ _ _ _ _ E), (run_bind _ _ _ _ _ E0). apply IH.
  - rewrite (run_bind_raise _ _ _ _ E), (run_bind_raise _ _ _ _ E0). reflexivity.
Qed.

Lemma dispatch_and_record_run (env : tick_env) (m : MultiPing) (s : heap) :
  wf m s ->
  exists s', dispatch_and_record env m s = Ok (tt, s') /\
             after_record env (current_index m) (all_tests m)
               (submitted (all_tests m) s) s' /\
             wf m s'.
Proof.
  intros [Hi Hok]. unfold dispatch_and_record.
  erewrite run_bind.
  2:{ apply submit_hosts_run. intros t Hin.
      destruct (ok_good _ _ _ Hok t Hin) as (o & l & Ho & Hp & _). eauto. }
  simpl. rewrite for_each_tasks. fold (all_tests m).
  pose proof (tests_ok_log _ _ _ (log s ++ map EvSubmit (all_tests m)) Hok) as Hok'.
  fold (submitted (all_tests m) s) in Hok'.
  destruct (for_each_local (Z.to_nat (history_length m))
              (record_result env (current_index m))
              (fun t => recorded (result_of env t) (strftime env t))
              (fun t => <[Z.to_nat (current_index m) := recorded_symbol (result_of env t)]>)
              (fun t => recorded_events (result_of env t) (strftime env t) (current_index m) t))
    with (ts := all_tests m) (s := submitted (all_tests m) s)
    as (s' & Hrun & Haft); try assumption.
  - intros t o. unfold recorded. destruct (fst (result_of env t)); reflexivity.
  - intros t o. unfold recorded. destruct (fst (result_of env t)); reflexivity.
  - intros. apply length_insert.
  - intros t o l s0 Ho Hp Hl Hlen. apply run_record_result; try assumption. lia.
  - exists s'. split; [assumption|]. split; [assumption|].
    split; [assumption|].
    eapply after_tests_ok; [ | | | eassumption | eassumption ].
    + intros t o. unfold recorded. destruct (fst (result_of env t)); reflexivity.
    + intros t o. unfold recorded. destruct (fst (result_of env t)); reflexivity.
    + intros. apply length_insert.
Qed.

Lemma recorded_set_latency (r : bool * option Q) (now : string) (v : Q) (o : TestResult) :
  recorded r now (set_latency v o) = recorded r now o.
Proof. reflexivity. Qed.

Lemma events_of_premarked (fe : loc -> TestResult -> list event) (s s1 : heap)
    (ts : list loc) :
  (forall t o, fe t (set_latency (-1) o) = fe t o) ->
  (forall t, t ∈ ts -> exists o, objs s !! t = Some o /\
                                 objs s1 !! t = Some (set_latency (-1) o)) ->
  events_of fe s1 ts = events_of fe s ts.
Proof.
  intros Hfe. induction ts as [|t ts IH]; intros H; simpl; [reflexivity|].
  destruct (H t) as (o & Ho & Ho1); [set_solver|].
  rewrite Ho, Ho1, Hfe. f_equal. apply IH. intros t' Hin. apply H. set_solver.
Qed.

Lemma update_tests_run (env : tick_env) (m : MultiPing) (s : heap) :
  wf m s ->
  exists s', update_tests env m s = Ok (tt, s') /\ wf m s' /\ after_tick env m s s'.
Proof.
  intros Hwf.
  destruct (premark_run m s Hwf) as (s1 & Hrun1 & [P1 P2 P3 P4 P5] & Hwf1).
  destruct (dispatch_and_record_run env m s1 Hwf1) as (s' & Hrun2 & [R1 R2 R3 R4 R5] & Hwf').
  exists s'. split; [|split; [exact Hwf'|]].
  { unfold update_tests. rewrite (run_bind _ _ _ _ _ Hrun1). exact Hrun2. }
  pose proof (ok_good _ _ _ (wf_tests _ _ Hwf)) as Hgood.
  simpl in *. split.
  - intros t o Hin Ho.
    rewrite (R1 t (set_latency (-1) o) Hin (P1 t o Hin Ho)). reflexivity.
  - intros t Hnin. rewrite (R2 t Hnin). apply P2. exact Hnin.
  - intros t o l Hin Ho Hl.
    pose proof (R3 t (set_latency (-1) o) _ Hin (P1 t o Hin Ho) (P3 t o l Hin Ho Hl)) as H.
    simpl in H. rewrite H, list_insert_insert_eq. reflexivity.
  - intros b Hb. rewrite R4.
    + apply P4. exact Hb.
    + intros t o1 Hin Ho1.
      destruct (Hgood t Hin) as (o & l & Ho & _).
      rewrite (P1 t o Hin Ho) in Ho1. injection Ho1 as <-.
      apply (Hb t o Hin Ho).
  - rewrite R5, P5. rewrite <- !app_assoc. do 3 f_equal.
    apply events_of_premarked; [reflexivity|].
    intros t Hin. destruct (Hgood t Hin) as (o & l & Ho & _).
    exists o. split; [exact Ho | apply (P1 t o Hin Ho)].
Qed.

(** ** The history string *)

Lemma string_app_assoc (a b c : string) : (a +:+ b) +:+ c = a +:+ (b +:+ c).
Proof.
  induction a as [|x a IH]; [reflexivity|].
  change ((String x a +:+ b) +:+ c) with (String x ((a +:+ b) +:+ c)).
  rewrite IH. reflexivity.
Qed.

Lemma string_app_nil_r (a : string) : a +:+ "" = a.
Proof.
  induction a as [|x a IH]; [reflexivity|].
  change (String x a +:+ "") with (String x (a +:+ "")). rewrite IH. reflexivity.
Qed.

Lemma get_history_loop_spec (l : list string) (cur N : Z) :
  length l = Z.to_nat N ->
  forall (n i0 : nat) (s : string),
    (i0 + n = Z.to_nat N)%nat ->
    get_history_loop l cur N (Z.of_nat i0) n s =
      Ok (s +:+ concat_strings
                  (map (fun i : nat => nth (Z.to_nat ((cur - Z.of_nat i + N) `mod` N)) l "")
                       (seq i0 n))).
Proof.
  intros Hlen n. induction n as [|n IH]; intros i0 s Hn.
  - simpl. rewrite string_app_nil_r. reflexivity.
  - assert (HN : 0 < N) by lia.
    pose proof (Z.mod_pos_bound (cur - Z.of_nat i0 + N) N HN) as Hb.
    cbn [get_history_loop seq map concat_strings foldr].
    rewrite py_index_in_range by lia.
    destruct (lookup_lt_is_Some_2 l (Z.to_nat ((cur - Z.of_nat i0 + N) `mod` N)))
      as [x Hx]; [lia|].
    rewrite Hx, (nth_lookup_Some _ _ _ _ Hx).
    replace (Z.of_nat i0 + 1) with (Z.of_nat (S i0)) by lia.
    rewrite IH by lia. rewrite string_app_assoc. reflexivity.
Qed.

Lemma run_get_history_string (t : loc) (cur N : Z) (o : TestResult)
    (l : list string) (s : heap) :
  objs s !! t = Some o ->
  lists s !! history o = Some l ->
  length l = Z.to_nat N ->
  get_history_string t cur N s = Ok (render_spec l cur N, s).
Proof.
  intros Ho Hl Hlen. unfold get_history_string.
  rewrite (run_bind _ _ _ _ _ (run_get_obj _ _ _ Ho)).
  rewrite (run_bind _ _ _ _ _ (run_get_list _ _ _ Hl)).
  change 0 with (Z.of_nat 0).
  rewrite (get_history_loop_spec l cur N Hlen (Z.to_nat N) 0 "") by lia.
  reflexivity.
Qed.

(** C6: for a test whose history list has [history_length] elements,
    [get_history_string] returns the concatenation of the symbols at the
    indices [(current_index - i + history_length) mod history_length] for
    [i = 0 .. history_length - 1], in that order, and leaves the heap as it
    is; for the list A, B, C, D, E with [current_index = 4] this is "EDCBA". *)
Theorem get_history_string_renders :
  (forall (t : loc) (current_index history_length : Z) (o : TestResult)
          (l : list string) (s : heap),
      objs s !! t = Some o ->
      lists s !! history o = Some l ->
      length l = Z.to_nat history_length ->
      get_history_string t current_index history_length s =
        Ok (concat_strings
              (map (fun i : nat =>
                      nth (Z.to_nat ((current_index - Z.of_nat i + history_length)
                                       `mod` history_length)) l "")
                   (seq 0 (Z.to_nat history_length))), s)) /\
  (forall (t : loc) (o : TestResult) (s : heap),
      objs s !! t = Some o ->
      lists s !! history o = Some ["A"; "B"; "C"; "D"; "E"] ->
      get_history_string t 4 5 s = Ok ("EDCBA", s)).
Proof.
  split.
  - intros t c N o l s Ho Hl Hlen.
    exact (run_get_history_string t c N o l s Ho Hl Hlen).
  - intros t o s Ho Hl.
    rewrite (run_get_history_string t 4 5 o _ s Ho Hl); reflexivity.
Qed.

(** ** Reading the log *)

Lemma writes_to_app (b : loc) (tr1 tr2 : list event) :
  writes_to b (tr1 ++ tr2) = writes_to b tr1 ++ writes_to b tr2.
Proof. apply flat_map_app. Qed.

Lemma stamps_of_app (t : loc) (tr1 tr2 : list event) :
  stamps_of t (tr1 ++ tr2) = stamps_of t tr1 ++ stamps_of t tr2.
Proof. apply flat_map_app. Qed.

Lemma writes_to_submits (b : loc) (ts : list loc) :
  writes_to b (map EvSubmit ts) = [].
Proof. induction ts as [|t ts IH]; [reflexivity | exact IH]. Qed.

Lemma stamps_of_submits (t : loc) (ts : list loc) :
  stamps_of t (map EvSubmit ts) = [].
Proof. induction ts as [|t' ts IH]; [reflexivity | exact IH]. Qed.

(** Among the events of a loop, those a filter [f] keeps are the ones of the
    single test whose events it does not drop. *)
Lemma flat_map_events_of {B} (f : event -> list B)
    (fe : loc -> TestResult -> list event) (s : heap) (ts : list loc)
    (t : loc) (o : TestResult) :
  NoDup ts -> t ∈ ts -> objs s !! t = Some o ->
  (forall t' o', t' ∈ ts -> t' <> t -> objs s !! t' = Some o' ->
                 flat_map f (fe t' o') = []) ->
  flat_map f (events_of fe s ts) = flat_map f (fe t o).
Proof.
  intros Hnd Hin Ho Hother.
  assert (Hnone : forall ts', (forall t', t' ∈ ts' -> t' ∈ ts /\ t' <> t) ->
                              flat_map f (events_of fe s ts') = []).
  { induction ts' as [|t' ts' IH]; intros H; [reflexivity|].
    unfold events_of. simpl. rewrite flat_map_app.
    fold (events_of fe s ts'). rewrite IH by (intros; apply H; set_solver).
    rewrite app_nil_r.
    destruct (objs s !! t') as [o'|] eqn:Ho'; [|reflexivity].
    destruct (H t') as [H1 H2]; [set_solver|]. apply (Hother t' o'); assumption. }
  induction ts as [|t0 ts IH]; [set_solver|].
  apply NoDup_cons in Hnd as [Hnotin Hnd].
  unfold events_of. simpl. rewrite flat_map_app. fold (events_of fe s ts).
  destruct (decide (t0 = t)) as [->|Hne].
  - rewrite Ho. rewrite (Hnone ts); [apply app_nil_r|].
    intros t' Hin'. split; [set_solver | intros ->; contradiction].
  - assert (Hin' : t ∈ ts) by set_solver.
    rewrite IH; try assumption.
    + destruct (objs s !! t0) as [o0|] eqn:Ho0; [|reflexivity].
      rewrite (Hother t0 o0); [reflexivity | set_solver | assumption | assumption].
    + intros t' o' Hi' Hn' Ho'. apply (Hother t' o'); [set_solver | assumption ..].
    + intros ts' H. apply Hnone. intros t' Ht'. destruct (H t' Ht'). split; [set_solver | assumption].
Qed.

Lemma writes_to_premark_events (cur : Z) (o : TestResult) :
  writes_to (history o) [EvWrite (history o) cur "X"] = [(cur, "X")].
Proof. unfold writes_to. simpl. rewrite Nat.eqb_refl. reflexivity. Qed.

Lemma writes_to_recorded_events (r : bool * option Q) (now : string) (cur : Z)
    (t : loc) (o : TestResult) :
  writes_to (history o) (recorded_events r now cur t o) = [(cur, recorded_symbol r)].
Proof.
  unfold recorded_events, recorded_symbol, writes_to.
  destruct (fst r); [|destruct (String.eqb (last_seen o) "")];
    simpl; rewrite Nat.eqb_refl; reflexivity.
Qed.

Lemma writes_to_other_recorded (b : loc) (r : bool * option Q) (now : string)
    (cur : Z) (t : loc) (o : TestResult) :
  history o <> b -> writes_to b (recorded_events r now cur t o) = [].
Proof.
  intros Hne. apply Nat.eqb_neq in Hne.
  unfold recorded_events, writes_to.
  destruct (fst r); [|destruct (String.eqb (last_seen o) "")];
    simpl; rewrite Hne; reflexivity.
Qed.

Lemma stamps_of_recorded_events (r : bool * option Q) (now : string) (cur : Z)
    (t : loc) (o : TestResult) :
  stamps_of t (recorded_events r now cur t o) =
    if negb (fst r) && String.eqb (last_seen o) "" then ["Last seen: " +:+ now] else [].
Proof.
  unfold recorded_events, stamps_of.
  destruct (fst r); [|destruct (String.eqb (last_seen o) "")];
    simpl; rewrite ?Nat.eqb_refl; reflexivity.
Qed.

Lemma stamps_of_other_recorded (t' : loc) (r : bool * option Q) (now : string)
    (cur : Z) (t : loc) (o : TestResult) :
  t <> t' -> stamps_of t' (recorded_events r now cur t o) = [].
Proof.
  intros Hne. apply Nat.eqb_neq in Hne.
  unfold recorded_events, stamps_of.
  destruct (fst r); [|destruct (String.eqb (last_seen o) "")];
    simpl; rewrite ?Hne; reflexivity.
Qed.

Lemma stamps_of_premark_events (t : loc) (cur : Z) (s : heap) (ts : list loc) :
  stamps_of t (events_of (fun _ o => [EvWrite (history o) cur "X"]) s ts) = [].
Proof.
  induction ts as [|t' ts IH]; [reflexivity|].
  unfold events_of. simpl. rewrite stamps_of_app.
  fold (events_of (fun _ o => [EvWrite (history o) cur "X"]) s ts). rewrite IH.
  destruct (objs s !! t'); reflexivity.
Qed.

(** ** One tick *)

Lemma tick_writes (env : tick_env) (m : MultiPing) (s s' : heap) (t : loc) (o : TestResult) :
  wf m s -> after_tick env m s s' ->
  t ∈ all_tests m -> objs s !! t = Some o ->
  exists tr,
    log s' = log s ++ tr /\
    writes_to (history o) tr =
      [(current_index m, "X"); (current_index m, recorded_symbol (result_of env t))].
Proof.
  intros [_ [Hnd Hgood Hown]] [_ _ _ _ Hlog] Hin Ho.
  eexists. split; [exact Hlog|].
  rewrite !writes_to_app, writes_to_submits.
  unfold writes_to at 1 2.
  rewrite !(flat_map_events_of _ _ s (all_tests m) t o); try assumption.
  - fold (writes_to (history o) [EvWrite (history o) (current_index m) "X"]).
    fold (writes_to (history o)
            (recorded_events (result_of env t) (strftime env t) (current_index m) t o)).
    rewrite writes_to_premark_events, writes_to_recorded_events. reflexivity.
  - intros t' o' Hin' Hne Ho'.
    apply (writes_to_other_recorded (history o)).
    intros Heq. apply Hne. apply (Hown t' t o' o); assumption.
  - intros t' o' Hin' Hne Ho'. simpl.
    destruct (Nat.eqb (history o') (history o)) eqn:E; [|reflexivity].
    apply Nat.eqb_eq in E. exfalso. apply Hne. apply (Hown t' t o' o); assumption.
Qed.

(** C2, as amended: in a tick every test's history list is written exactly
    twice, both times at the shared current index: once with "X" by the
    first loop and once with the symbol of its result by the third. *)
Theorem update_tests_writes_twice (env : tick_env) (m : MultiPing) (s : heap) :
  wf m s ->
  exists s' tr,
    update_tests env m s = Ok (tt, s') /\
    log s' = log s ++ tr /\
    forall t o,
      t ∈ all_tests m -> objs s !! t = Some o ->
      let (up, latency) := future_result (future_of env t) in
      writes_to (history o) tr =
        [(current_index m, "X");
         (current_index m, if up then symbol_for_latency latency else "X")].
Proof.
  intros Hwf.
  destruct (update_tests_run env m s Hwf) as (s' & Hrun & Hwf' & Haft).
  exists s', (drop (length (log s)) (log s')).
  split; [exact Hrun|].
  assert (Hlog : log s' = log s ++ drop (length (log s)) (log s')).
  { rewrite (tick_log _ _ _ _ Haft) at 1 2. rewrite drop_app_length. reflexivity. }
  split; [exact Hlog|].
  intros t o Hin Ho.
  destruct (tick_writes env m s s' t o Hwf Haft Hin Ho) as (tr & Htr & Hw).
  rewrite Htr, drop_app_length, Hw.
  unfold recorded_symbol, result_of.
  destruct (future_result (future_of env t)) as [up latency]. reflexivity.
Qed.


(** C7: whatever the futures do, the tick does not raise; a test whose
    future raises or times out is recorded as a failure (latency -1, "X" in
    the slot, service "closed" for TCP), and every test is recorded from the
    result of its own future. *)
Theorem prober_exceptions_are_recorded (env : tick_env) (m : MultiPing) (s : heap) :
  wf m s ->
  exists s',
    update_tests env m s = Ok (tt, s') /\
    forall t o,
      t ∈ all_tests m -> objs s !! t = Some o ->
      exists o' l',
        objs s' !! t = Some o' /\
        lists s' !! history o' = Some l' /\
        match future_of env t with
        | Raised | TimedOut =>
            latency o' = (-1)%Q /\
            l' !! Z.to_nat (current_index m) = Some "X" /\
            (protocol o = "TCP" -> service o' = "closed")
        | Returned up lat =>
            latency o' = (if up then or_zero lat else (-1)%Q) /\
            l' !! Z.to_nat (current_index m) =
              Some (if up then symbol_for_latency lat else "X")
        end.
Proof.
  intros Hwf.
  destruct (update_tests_run env m s Hwf) as (s' & Hrun & Hwf' & [T1 T2 T3 T4 T5]).
  exists s'. split; [exact Hrun|].
  intros t o Hin Ho.
  destruct Hwf as [Hi [Hnd Hgood Hown]].
  destruct (Hgood t Hin) as (o0 & l & Ho0 & Hp & Hl & Hlen).
  assert (o0 = o) by congruence. subst o0.
  exists (recorded (result_of env t) (strftime env t) o),
         (<[Z.to_nat (current_index m) := recorded_symbol (result_of env t)]> l).
  split; [apply (T1 t o Hin Ho)|].
  split.
  { replace (history (recorded (result_of env t) (strftime env t) o)) with (history o)
      by (unfold recorded; destruct (fst (result_of env t)); reflexivity).
    apply (T3 t o l Hin Ho Hl). }
  assert (Hslot : forall x, <[Z.to_nat (current_index m) := x]> l
                              !! Z.to_nat (current_index m) = Some x)
    by (intros x; apply list_lookup_insert_eq; lia).
  unfold result_of, recorded, recorded_symbol.
  destruct (future_of env t) as [up lat| |]; simpl.
  - destruct up; simpl; split; [reflexivity | apply Hslot | reflexivity | apply Hslot].
  - split; [reflexivity|]. split; [apply Hslot|]. intros ->. reflexivity.
  - split; [reflexivity|]. split; [apply Hslot|]. intros ->. reflexivity.
Qed.

(** ** Several ticks *)

Lemma for_each_skip {A} (l : list A) (body : A -> M unit) (s : heap) :
  (forall x, x ∈ l -> body x s = Ok (tt, s)) ->
  for_each l body s = Ok (tt, s).
Proof.
  induction l as [|x l IH]; intros H; simpl; [reflexivity|].
  rewrite (run_bind _ _ _ _ _ (H x ltac:(set_solver))).
  apply IH. intros; apply H; set_solver.
Qed.

Lemma display_results_run (m : MultiPing) (s : heap) :
  wf m s -> display_results m s = Ok (tt, s).
Proof.
  intros [Hi [Hnd Hgood Hown]]. unfold display_results.
  rewrite for_each_nested. fold (all_tests m).
  apply for_each_skip. intros t Hin.
  destruct (Hgood t Hin) as (o & l & Ho & Hp & Hl & Hlen).
  rewrite (run_bind _ _ _ _ _ (run_get_history_string _ _ _ _ _ _ Ho Hl Hlen)).
  reflexivity.
Qed.

Lemma advance_index (m : MultiPing) :
  0 <= current_index m < history_length m ->
  0 <= current_index (advance m) < history_length m /\
  current_index (advance m) = (current_index m - 1) `mod` history_length m.
Proof.
  intros Hi. unfold advance. simpl.
  destruct (Z.ltb_spec (current_index m - 1) 0) as [Hlt|Hge].
  - split; [lia|].
    replace (current_index m - 1) with (history_length m - 1 + (-1) * history_length m) by lia.
    rewrite Z_mod_plus_full. symmetry. apply Z.mod_small. lia.
  - split; [lia|]. symmetry. apply Z.mod_small. lia.
Qed.

Lemma advance_wf (m : MultiPing) (s : heap) : wf m s -> wf (advance m) s.
Proof.
  intros [Hi Hok]. split.
  - apply (advance_index m Hi).
  - exact Hok.
Qed.

Lemma Forall_events_of (P : event -> Prop) (fe : loc -> TestResult -> list event)
    (s : heap) (ts : list loc) :
  (forall t o, Forall P (fe t o)) -> Forall P (events_of fe s ts).
Proof.
  intros H. induction ts as [|t ts IH]; [constructor|].
  unfold events_of. simpl. apply Forall_app. split; [|exact IH].
  destruct (objs s !! t); [apply H | constructor].
Qed.

Lemma tick_writes_at (env : tick_env) (m : MultiPing) (s s' : heap) :
  after_tick env m s s' ->
  exists tr, log s' = log s ++ tr /\
             Forall (writes_at (fun i => i = current_index m)) tr.
Proof.
  intros [_ _ _ _ Hlog]. eexists. split; [exact Hlog|].
  repeat (apply Forall_app; split).
  - apply Forall_events_of. intros t o. repeat constructor.
  - apply Forall_forall. intros e Hin. apply list_elem_of_In, in_map_iff in Hin as (t & <- & _).
    exact I.
  - apply Forall_events_of. intros t o. unfold recorded_events.
    destruct (fst (result_of env t)); [|destruct (String.eqb (last_seen o) "")];
      repeat constructor.
Qed.

Lemma run_step (n : nat) (env : nat -> tick_env) (m : MultiPing) (s : heap) :
  wf m s ->
  exists s1,
    update_tests (env O) m s = Ok (tt, s1) /\
    wf (advance m) s1 /\
    after_tick (env O) m s s1 /\
    run (S n) env m s = run n (fun k => env (S k)) (advance m) s1.
Proof.
  intros Hwf.
  destruct (update_tests_run (env O) m s Hwf) as (s1 & Hrun & Hwf1 & Haft).
  exists s1. split; [exact Hrun|]. split; [apply advance_wf; exact Hwf1|].
  split; [exact Haft|].
  simpl. rewrite (run_bind _ _ _ _ _ Hrun).
  rewrite (run_bind _ _ _ _ _ (display_results_run m s1 Hwf1)). reflexivity.
Qed.

Lemma run_spec (n : nat) :
  forall (env : nat -> tick_env) (m : MultiPing) (s : heap),
    wf m s ->
    exists m' s' tr,
      run n env m s = Ok (m', s') /\
      wf m' s' /\
      hosts m' = hosts m /\
      history_length m' = history_length m /\
      current_index m' = (current_index m - Z.of_nat n) `mod` history_length m /\
      log s' = log s ++ tr /\
      Forall (writes_at (fun i => 0 <= i < history_length m)) tr /\
      (forall t o, t ∈ all_tests m -> objs s !! t = Some o ->
                   exists o', objs s' !! t = Some o' /\ history o' = history o).
Proof.
  induction n as [|n IH]; intros env m s Hwf.
  - exists m, s, []. simpl. rewrite app_nil_r, Z.sub_0_r.
    rewrite Z.mod_small by apply (wf_index _ _ Hwf).
    repeat split; try reflexivity; try assumption; try apply (wf_index _ _ Hwf);
      try apply (wf_tests _ _ Hwf).
    + constructor.
    + intros t o _ Ho. exists o. split; [assumption | reflexivity].
  - destruct (run_step n env m s Hwf) as (s1 & Hrun1 & Hwf1 & Haft & Hstep).
    destruct (IH (fun k => env (S k)) (advance m) s1 Hwf1)
      as (m' & s' & tr & Hrun & Hwf' & Hh & Hn & Hc & Hlog & Htr & Hobj).
    destruct (tick_writes_at _ _ _ _ Haft) as (tr1 & Hlog1 & Htr1).
    exists m', s', (tr1 ++ tr).
    split; [rewrite Hstep; exact Hrun|].
    split; [exact Hwf'|].
    split; [exact Hh|].
    split; [exact Hn|].
    split.
    { rewrite Hc. simpl history_length.
      destruct (advance_index m (wf_index _ _ Hwf)) as [_ ->].
      rewrite Zminus_mod_idemp_l. f_equal. lia. }
    split; [rewrite Hlog, Hlog1, app_assoc; reflexivity|].
    split.
    { apply Forall_app. split; [|exact Htr].
      eapply Forall_impl; [exact Htr1|].
      intros [b i x| |]; simpl; try tauto.
      intros ->. apply (wf_index _ _ Hwf). }
    intros t o Hin Ho.
    destruct (Hobj t _ Hin (tick_obj _ _ _ _ Haft t o Hin Ho)) as (o' & Ho' & Hh').
    exists o'. split; [exact Ho'|]. rewrite Hh'.
    unfold recorded. destruct (fst (result_of (env O) t)); reflexivity.
Qed.

(** ** Construction *)

Lemma bind_Ok_inv {A B} (c : M A) (k : A -> M B) (s : heap) (r : B * heap) :
  bind c k s = Ok r -> exists a s1, c s = Ok (a, s1) /\ k a s1 = Ok r.
Proof.
  unfold bind. destruct (c s) as [[a s1]|e]; [|discriminate].
  intros H. exists a, s1. split; [reflexivity | exact H].
Qed.

Lemma extends_refl (s : heap) : extends s s.
Proof. split; auto. Qed.

Lemma extends_trans (s1 s2 s3 : heap) : extends s1 s2 -> extends s2 s3 -> extends s1 s3.
Proof.
  intros [A1 A2 A3] [B1 B2 B3]. split; [auto | auto | congruence].
Qed.

Lemma TestResult_init_run (clock : loc -> string) (proto : string) (pt : option Z)
    (N : Z) (ts : list loc) (s : heap) :
  pool clock N ts s ->
  upper proto = "ICMP" \/ upper proto = "TCP" ->
  exists t s' o,
    TestResult_init clock proto pt N s = Ok (t, s') /\
    pool clock N (ts ++ [t]) s' /\
    extends s s' /\
    objs s' !! t = Some o /\ protocol o = upper proto /\ port o = pt /\
    objs s !! t = None /\ lists s !! history o = None.
Proof.
  intros [[Hnd Hgood Hown] Hnew] Hproto.
  set (t := fresh (dom (objs s))). set (h := fresh (dom (lists s))).
  set (o := mkTestResult (upper proto) pt h (-1) ("Last seen: " +:+ clock t) "").
  assert (Ht : objs s !! t = None) by (apply not_elem_of_dom, is_fresh).
  assert (Hh : lists s !! h = None) by (apply not_elem_of_dom, is_fresh).
  exists t, (mkHeap (<[t := o]> (objs s))
                    (<[h := repeat "." (Z.to_nat N)]> (lists s)) (log s)), o.
  assert (Hts : forall t', t' ∈ ts -> t' <> t).
  { intros t' Hin ->. destruct (Hgood t Hin) as (o' & l' & Ho' & _). congruence. }
  assert (Hhs : forall t' o', t' ∈ ts -> objs s !! t' = Some o' -> history o' <> h).
  { intros t' o' Hin Ho' Heq. destruct (Hgood t' Hin) as (o2 & l' & Ho2 & _ & Hl & _).
    assert (o2 = o') by congruence. subst o2. rewrite Heq in Hl. congruence. }
  split; [reflexivity|].
  split; [|split; [|split; [apply lookup_insert_eq|repeat split; assumption]]].
  - split; [split|].
    + apply NoDup_app. split; [exact Hnd|]. split; [|apply NoDup_singleton].
      intros t' Hin Hin'. apply list_elem_of_singleton in Hin'. exact (Hts t' Hin Hin').
    + intros t' Hin. apply elem_of_app in Hin as [Hin|Hin].
      * destruct (Hgood t' Hin) as (o' & l' & Ho' & Hp' & Hl' & Hlen').
        exists o', l'. simpl.
        rewrite lookup_insert_ne by (apply not_eq_sym, Hts, Hin).
        rewrite lookup_insert_ne by (apply not_eq_sym, (Hhs t' o' Hin Ho')).
        auto.
      * apply list_elem_of_singleton in Hin. subst t'.
        exists o, (repeat "." (Z.to_nat N)). simpl.
        rewrite !lookup_insert_eq. rewrite repeat_length. auto.
    + intros t1 t2 o1 o2 H1 H2. simpl.
      apply elem_of_app in H1 as [H1|H1]; apply elem_of_app in H2 as [H2|H2];
        try (apply list_elem_of_singleton in H1; subst t1);
        try (apply list_elem_of_singleton in H2; subst t2);
        rewrite ?lookup_insert_eq;
        rewrite ?lookup_insert_ne by (apply not_eq_sym, Hts; assumption).
      * apply (Hown t1 t2 o1 o2 H1 H2).
      * intros Ho1 Ho2 Heq. injection Ho2 as <-. exfalso. apply (Hhs t1 o1 H1 Ho1 Heq).
      * intros Ho1 Ho2 Heq. injection Ho1 as <-. exfalso.
        apply (Hhs t2 o2 H2 Ho2). symmetry. exact Heq.
      * reflexivity.
    + intros t' Hin. apply elem_of_app in Hin as [Hin|Hin].
      * destruct (Hnew t' Hin) as (o' & Ho' & H1 & H2 & H3 & H4).
        exists o'. simpl.
        rewrite lookup_insert_ne by (apply not_eq_sym, Hts, Hin).
        rewrite lookup_insert_ne by (apply not_eq_sym, (Hhs t' o' Hin Ho')).
        auto.
      * apply list_elem_of_singleton in Hin. subst t'.
        exists o. simpl. rewrite !lookup_insert_eq. auto.
  - split; simpl; [| |reflexivity].
    + intros t' o' Ho'. rewrite lookup_insert_ne; [assumption | congruence].
    + intros b l Hl. rewrite lookup_insert_ne; [assumption | congruence].
Qed.

Lemma expand_range_run (clock : loc -> string) (N : Z) (n : nat) :
  forall (p : Z) (tests ts : list loc) (s : heap),
    pool clock N ts s ->
    exists new s',
      expand_range clock N p n tests s = Ok (tests ++ new, s') /\
      pool clock N (ts ++ new) s' /\
      extends s s' /\
      length new = n /\
      forall i t, new !! i = Some t ->
        exists o, objs s' !! t = Some o /\ protocol o = "TCP" /\
                  port o = Some (p + Z.of_nat i) /\ objs s !! t = None.
Proof.
  induction n as [|n IH]; intros p tests ts s Hpool.
  - exists [], s. simpl. rewrite !app_nil_r.
    split; [reflexivity|]. split; [assumption|]. split; [apply extends_refl|].
    split; [reflexivity|]. intros i t Hi. destruct i; discriminate Hi.
  - destruct (TestResult_init_run clock "TCP" (Some p) N ts s Hpool)
      as (t & s1 & o & Hrun & Hpool1 & Hext1 & Ho & Hp & Hport & Hfresh & _);
      [right; reflexivity|].
    destruct (IH (p + 1) (tests ++ [t]) (ts ++ [t]) s1 Hpool1)
      as (new & s' & Hrun' & Hpool' & Hext' & Hlen & Hnew).
    exists (t :: new), s'.
    split.
    { simpl. rewrite (run_bind _ _ _ _ _ Hrun), Hrun'.
      rewrite <- app_assoc. reflexivity. }
    split; [rewrite <- app_assoc in Hpool'; exact Hpool'|].
    split; [exact (extends_trans _ _ _ Hext1 Hext')|].
    split; [simpl; congruence|].
    intros [|i] t' Hi; simpl in Hi.
    + injection Hi as <-. exists o.
      split; [apply (ext_objs _ _ Hext' _ _ Ho)|].
      split; [exact Hp|]. split; [rewrite Hport; f_equal; lia | exact Hfresh].
    + destruct (Hnew i t' Hi) as (o' & Ho' & Hp' & Hport' & Hfresh').
      exists o'. split; [exact Ho'|]. split; [exact Hp'|].
      split; [rewrite Hport'; f_equal; lia|].
      destruct (objs s !! t') as [o0|] eqn:E; [|reflexivity].
      rewrite (ext_objs _ _ Hext1 _ _ E) in Hfresh'. discriminate Hfresh'.
Qed.

Lemma load_test_run (clock : loc -> string) (N : Z) (ip : string) (test : test_cfg)
    (tests ts : list loc) (s : heap) (tests' : list loc) (s' : heap) :
  pool clock N ts s ->
  load_test clock N ip test tests s = Ok (tests', s') ->
  exists new, tests' = tests ++ new /\ pool clock N (ts ++ new) s' /\ extends s s'.
Proof.
  intros Hpool. unfold load_test.
  assert (Hone : forall proto pt,
    upper proto = "ICMP" \/ upper proto = "TCP" ->
    (t <- TestResult_init clock proto pt N ;; ret (tests ++ [t])) s = Ok (tests', s') ->
    exists new, tests' = tests ++ new /\ pool clock N (ts ++ new) s' /\ extends s s').
  { intros proto pt Hproto H.
    destruct (TestResult_init_run clock proto pt N ts s Hpool Hproto)
      as (t & s1 & o & Hrun & Hpool1 & Hext1 & _).
    rewrite (run_bind _ _ _ _ _ Hrun) in H. injection H as <- <-.
    exists [t]. auto. }
  destruct (String.eqb (upper (default "ICMP" (cfg_protocol test))) "TCP").
  - destruct (cfg_port test) as [[port_num|port_val]|]; [| |discriminate].
    + apply Hone. right; reflexivity.
    + destruct (contains_char "-" port_val).
      * destruct (split "-" port_val) as [|start [|end_ [|]]]; try discriminate.
        destruct (py_int start) as [a|]; [|discriminate].
        destruct (py_int end_) as [b|]; [|discriminate].
        destruct (expand_range_run clock N (Z.to_nat (b + 1 - a)) a tests ts s Hpool)
          as (new & s1 & Hrun & Hpool1 & Hext1 & _).
        rewrite Hrun. intros H. injection H as <- <-. exists new. auto.
      * destruct (py_int port_val) as [port_num|]; [|discriminate].
        apply Hone. right; reflexivity.
  - apply Hone. left; reflexivity.
Qed.

Lemma load_tests_run (clock : loc -> string) (N : Z) (ip : string)
    (test_list : list test_cfg) :
  forall (tests ts : list loc) (s : heap) (tests' : list loc) (s' : heap),
    pool clock N ts s ->
    load_tests clock N ip test_list tests s = Ok (tests', s') ->
    exists new, tests' = tests ++ new /\ pool clock N (ts ++ new) s' /\ extends s s'.
Proof.
  induction test_list as [|test rest IH]; intros tests ts s tests' s' Hpool H.
  - injection H as <- <-. exists []. rewrite !app_nil_r.
    split; [reflexivity|]. split; [assumption | apply extends_refl].
  - simpl in H. apply bind_Ok_inv in H as (tests1 & s1 & H1 & H2).
    destruct (load_test_run _ _ _ _ _ _ _ _ _ Hpool H1) as (new1 & -> & Hpool1 & Hext1).
    destruct (IH _ _ _ _ _ Hpool1 H2) as (new2 & -> & Hpool2 & Hext2).
    exists (new1 ++ new2). rewrite <- !app_assoc in *.
    split; [reflexivity|]. split; [assumption|].
    exact (extends_trans _ _ _ Hext1 Hext2).
Qed.

Lemma Host_init_run (clock : loc -> string) (ip description : string)
    (tests0 ts : list loc) (N : Z) (s : heap) (host : Host) (s' : heap) :
  pool clock N (ts ++ tests0) s ->
  Host_init clock ip description tests0 N s = Ok (host, s') ->
  pool clock N (ts ++ tests host) s' /\ extends s s' /\
  IPv4Address_ok ip = true /\
  match tests0 with
  | [] => exists t o, tests host = [t] /\ objs s' !! t = Some o /\
                      protocol o = "ICMP" /\ port o = None /\ objs s !! t = None
  | _ => tests host = tests0
  end.
Proof.
  intros Hpool. unfold Host_init.
  destruct (IPv4Address_ok ip); [|discriminate].
  destruct tests0 as [|t0 tests0].
  - rewrite app_nil_r in Hpool.
    destruct (TestResult_init_run clock "ICMP" None N ts s Hpool)
      as (t & s1 & o & Hrun & Hpool1 & Hext1 & Ho & Hp & Hport & Hfresh & _);
      [left; reflexivity|].
    rewrite run_bind_assoc, (run_bind _ _ _ _ _ Hrun).
    intros H. injection H as <- <-. simpl.
    split; [assumption|]. split; [assumption|]. split; [reflexivity|].
    exists t, o. auto.
  - intros H. injection H as <- <-. simpl.
    split; [assumption|]. split; [apply extends_refl|]. split; reflexivity.
Qed.

Lemma load_host_run (clock : loc -> string) (N : Z) (self_ips : list string)
    (entry : string * details_cfg) (hs : list Host) (s : heap)
    (hs' : list Host) (s' : heap) :
  pool clock N (flat_map tests hs) s ->
  load_host clock N self_ips entry hs s = Ok (hs', s') ->
  pool clock N (flat_map tests hs') s' /\ extends s s'.
Proof.
  intros Hpool. unfold load_host. destruct entry as [ip0 details].
  destruct (bool_decide (ip0 ∈ self_ips)).
  { intros H. injection H as <- <-. split; [assumption | apply extends_refl]. }
  intros H. apply bind_Ok_inv in H as (ts1 & s1 & H1 & H).
  apply bind_Ok_inv in H as (host & s2 & H2 & H).
  injection H as <- <-.
  assert (Hts1 : pool clock N (flat_map tests hs ++ ts1) s1 /\ extends s s1).
  { assert (Hdefault :
      (t <- TestResult_init clock "ICMP" None N ;; ret [t]) s = Ok (ts1, s1) ->
      pool clock N (flat_map tests hs ++ ts1) s1 /\ extends s s1).
    { intros H.
      destruct (TestResult_init_run clock "ICMP" None N _ s Hpool)
        as (t & s0 & o & Hrun & Hpool0 & Hext0 & _); [left; reflexivity|].
      rewrite (run_bind _ _ _ _ _ Hrun) in H. injection H as <- <-. auto. }
    destruct (cfg_tests details) as [[|test rest]|]; try (apply Hdefault; exact H1).
    destruct (load_tests_run _ _ _ _ _ _ _ _ _ Hpool H1) as (new & -> & Hp & He).
    auto. }
  destruct Hts1 as [Hpool1 Hext1].
  destruct (Host_init_run _ _ _ _ _ _ _ _ _ Hpool1 H2) as (Hpool2 & Hext2 & _).
  split; [|exact (extends_trans _ _ _ Hext1 Hext2)].
  rewrite flat_map_app. simpl. rewrite app_nil_r. exact Hpool2.
Qed.

Lemma load_host_item_run (clock : loc -> string) (N : Z) (self_ips : list string)
    (host_item : list (string * details_cfg)) :
  forall (hs : list Host) (s : heap) (hs' : list Host) (s' : heap),
    pool clock N (flat_map tests hs) s ->
    load_host_item clock N self_ips host_item hs s = Ok (hs', s') ->
    pool clock N (flat_map tests hs') s' /\ extends s s'.
Proof.
  induction host_item as [|entry rest IH]; intros hs s hs' s' Hpool H.
  - injection H as <- <-. split; [assumption | apply extends_refl].
  - simpl in H. apply bind_Ok_inv in H as (hs1 & s1 & H1 & H2).
    destruct (load_host_run _ _ _ _ _ _ _ _ Hpool H1) as [Hpool1 Hext1].
    destruct (IH _ _ _ _ Hpool1 H2) as [Hpool2 Hext2].
    split; [assumption | exact (extends_trans _ _ _ Hext1 Hext2)].
Qed.

Lemma load_host_items_run (clock : loc -> string) (N : Z) (self_ips : list string)
    (items : list (list (string * details_cfg))) :
  forall (hs : list Host) (s : heap) (hs' : list Host) (s' : heap),
    pool clock N (flat_map tests hs) s ->
    load_host_items clock N self_ips items hs s = Ok (hs', s') ->
    pool clock N (flat_map tests hs') s' /\ extends s s'.
Proof.
  induction items as [|host_item rest IH]; intros hs s hs' s' Hpool H.
  - injection H as <- <-. split; [assumption | apply extends_refl].
  - simpl in H. apply bind_Ok_inv in H as (hs1 & s1 & H1 & H2).
    destruct (load_host_item_run _ _ _ _ _ _ _ _ Hpool H1) as [Hpool1 Hext1].
    destruct (IH _ _ _ _ Hpool1 H2) as [Hpool2 Hext2].
    split; [assumption | exact (extends_trans _ _ _ Hext1 Hext2)].
Qed.

Lemma pool_empty (clock : loc -> string) (N : Z) : pool clock N [] empty_heap.
Proof.
  split; [split|].
  - constructor.
  - intros t Hin. apply elem_of_nil in Hin. destruct Hin.
  - intros t1 t2 o1 o2 Hin. apply elem_of_nil in Hin. destruct Hin.
  - intros t Hin. apply elem_of_nil in Hin. destruct Hin.
Qed.

(** What [MultiPing.__init__] builds, when the configuration is accepted, is
    a state between two ticks whose tests are all freshly constructed. *)
Lemma MultiPing_init_wf (clock : loc -> string) (hostname_I : list string)
    (data : config) (N : Z) (m : MultiPing) (s : heap) :
  1 <= N ->
  MultiPing_init clock hostname_I data N empty_heap = Ok (m, s) ->
  wf m s /\
  history_length m = N /\ current_index m = N - 1 /\ log s = [] /\
  forall t, t ∈ all_tests m -> constructed clock N s t.
Proof.
  intros HN H. unfold MultiPing_init in H.
  apply bind_Ok_inv in H as (hs & s1 & H1 & H). injection H as <- <-.
  unfold load_config in H1. destruct (cfg_hosts data) as [items|]; [|discriminate].
  destruct (load_host_items_run clock N _ items [] empty_heap hs s1
              (pool_empty clock N) H1) as [[Hok Hnew] Hext].
  split; [split; [simpl; lia | exact Hok]|].
  repeat split; try exact Hnew. apply (ext_log _ _ Hext).
Qed.

(** ** [last_seen] over the ticks *)

Lemma tick_last_seen (env : tick_env) (m : MultiPing) (s s' : heap) (t : loc)
    (o : TestResult) :
  wf m s -> after_tick env m s s' ->
  t ∈ all_tests m -> objs s !! t = Some o ->
  exists o' tr,
    objs s' !! t = Some o' /\
    log s' = log s ++ tr /\
    last_seen o' =
      (if fst (result_of env t) then ""
       else if String.eqb (last_seen o) ""
            then "Last seen: " +:+ strftime env t else last_seen o) /\
    stamps_of t tr =
      (if negb (fst (result_of env t)) && String.eqb (last_seen o) ""
       then ["Last seen: " +:+ strftime env t] else []).
Proof.
  intros [_ [Hnd Hgood Hown]] [T1 _ _ _ Hlog] Hin Ho.
  eexists _, _. split; [apply (T1 t o Hin Ho)|]. split; [exact Hlog|].
  split.
  - unfold recorded. destruct (fst (result_of env t)); reflexivity.
  - rewrite !stamps_of_app, stamps_of_submits, stamps_of_premark_events. simpl.
    unfold stamps_of at 1.
    rewrite (flat_map_events_of _ _ s (all_tests m) t o); try assumption.
    + apply stamps_of_recorded_events.
    + intros t' o' Hin' Hne Ho'. apply (stamps_of_other_recorded t). exact Hne.
Qed.

Lemma last_seen_text_nonempty (now : string) :
  String.eqb ("Last seen: " +:+ now) "" = false.
Proof. reflexivity. Qed.

Lemma run_failing (n : nat) :
  forall (env : nat -> tick_env) (m : MultiPing) (s : heap) (t : loc) (o : TestResult),
    wf m s -> t ∈ all_tests m -> objs s !! t = Some o ->
    (forall i, (i < n)%nat -> fst (result_of (env i) t) = false) ->
    exists m' s' o' tr,
      run n env m s = Ok (m', s') /\
      objs s' !! t = Some o' /\
      log s' = log s ++ tr /\
      last_seen o' =
        match n with
        | O => last_seen o
        | S _ => if String.eqb (last_seen o) ""
                 then "Last seen: " +:+ strftime (env O) t else last_seen o
        end /\
      stamps_of t tr =
        match n with
        | O => []
        | S _ => if String.eqb (last_seen o) ""
                 then ["Last seen: " +:+ strftime (env O) t] else []
        end.
Proof.
  induction n as [|n IH]; intros env m s t o Hwf Hin Ho Hfail.
  - exists m, s, o, []. rewrite app_nil_r. repeat split; assumption.
  - destruct (run_step n env m s Hwf) as (s1 & Hrun1 & Hwf1 & Haft & Hstep).
    destruct (tick_last_seen _ _ _ _ t o Hwf Haft Hin Ho)
      as (o1 & tr1 & Ho1 & Hlog1 & Hls1 & Hst1).
    rewrite (Hfail O) in Hls1, Hst1 by lia. simpl in Hst1.
    destruct (IH (fun k => env (S k)) (advance m) s1 t o1 Hwf1 Hin Ho1)
      as (m' & s' & o' & tr & Hrun & Ho' & Hlog & Hls & Hst).
    { intros i Hi. apply Hfail. lia. }
    exists m', s', o', (tr1 ++ tr).
    split; [rewrite Hstep; exact Hrun|]. split; [exact Ho'|].
    split; [rewrite Hlog, Hlog1, app_assoc; reflexivity|].
    assert (Hne : String.eqb (last_seen o1) "" = false).
    { rewrite Hls1. destruct (String.eqb (last_seen o) "") eqn:E;
        [apply last_seen_text_nonempty | exact E]. }
    split.
    + rewrite Hls. destruct n; [exact Hls1 | rewrite Hne; exact Hls1].
    + rewrite stamps_of_app, Hst, Hst1.
      destruct n; [apply app_nil_r | rewrite Hne; apply app_nil_r].
Qed.

Lemma run_failing_then_up (n : nat) :
  forall (env : nat -> tick_env) (m : MultiPing) (s : heap) (t : loc) (o : TestResult),
    wf m s -> t ∈ all_tests m -> objs s !! t = Some o ->
    fst (result_of (env n) t) = true ->
    exists m' s' o',
      run (S n) env m s = Ok (m', s') /\
      objs s' !! t = Some o' /\
      last_seen o' = "".
Proof.
  induction n as [|n IH]; intros env m s t o Hwf Hin Ho Hup.
  - destruct (run_step O env m s Hwf) as (s1 & Hrun1 & Hwf1 & Haft & Hstep).
    destruct (tick_last_seen _ _ _ _ t o Hwf Haft Hin Ho)
      as (o1 & tr1 & Ho1 & Hlog1 & Hls1 & Hst1).
    rewrite Hup in Hls1.
    exists (advance m), s1, o1. rewrite Hstep. repeat split; assumption.
  - destruct (run_step (S n) env m s Hwf) as (s1 & Hrun1 & Hwf1 & Haft & Hstep).
    destruct (tick_last_seen _ _ _ _ t o Hwf Haft Hin Ho)
      as (o1 & tr1 & Ho1 & _).
    destruct (IH (fun k => env (S k)) (advance m) s1 t o1 Hwf1 Hin Ho1 Hup)
      as (m' & s' & o' & Hrun & Ho' & Hls).
    exists m', s', o'. rewrite Hstep. repeat split; assumption.
Qed.

(** ** The example installation *)

Lemma example_start_eq : example_start = Ok (example_m, example_heap).
Proof. vm_compute. reflexivity. Qed.

Lemma example_wf : wf example_m example_heap.
Proof.
  apply (MultiPing_init_wf example_clock [] example_config 3); [lia|].
  exact example_start_eq.
Qed.

(** ** The tick pointer and the history lists *)

(** C5: the instance [MultiPing.__init__] builds for a history length
    [N >= 1] starts with [current_index = N - 1]; after [n] iterations of
    [run] the index is [(N - 1 - n) mod N], the next decrement takes it to
    the index minus one, or to [N - 1] from 0; every write made so far has
    an index in [[0, N)], and every test still has its history list, of
    length [N]. *)
Theorem tick_index_cycles (clock : loc -> string) (hostname_I : list string)
    (data : config) (N : Z) (m : MultiPing) (s : heap)
    (n : nat) (env : nat -> tick_env) :
  1 <= N ->
  MultiPing_init clock hostname_I data N empty_heap = Ok (m, s) ->
  current_index m = N - 1 /\
  exists m' s',
    run n env m s = Ok (m', s') /\
    current_index m' = (N - 1 - Z.of_nat n) `mod` N /\
    0 <= current_index m' < N /\
    current_index (advance m') =
      (if current_index m' =? 0 then N - 1 else current_index m' - 1) /\
    Forall (writes_at (fun i => 0 <= i < N)) (log s') /\
    forall t, t ∈ all_tests m ->
      exists o o' l',
        objs s !! t = Some o /\ objs s' !! t = Some o' /\
        history o' = history o /\
        lists s' !! history o' = Some l' /\
        Z.of_nat (length l') = N.
Proof.
  intros HN Hinit.
  destruct (MultiPing_init_wf _ _ _ _ _ _ HN Hinit) as (Hwf & HlenN & Hc & Hlog0 & _).
  split; [exact Hc|].
  destruct (run_spec n env m s Hwf)
    as (m' & s' & tr & Hrun & Hwf' & Hh & Hn & Hc' & Hlog & Htr & Hobj).
  exists m', s'. split; [exact Hrun|].
  rewrite Hc, HlenN in Hc'. rewrite HlenN in Htr.
  pose proof (wf_index _ _ Hwf') as Hi'. rewrite Hn, HlenN in Hi'.
  split; [exact Hc'|]. split; [exact Hi'|].
  split.
  { unfold advance. simpl. rewrite Hn, HlenN.
    destruct (Z.eqb_spec (current_index m') 0) as [->|Hne]; [reflexivity|].
    destruct (Z.ltb_spec (current_index m' - 1) 0); [lia | reflexivity]. }
  split; [rewrite Hlog, Hlog0; exact Htr|].
  intros t Hin.
  destruct (ok_good _ _ _ (wf_tests _ _ Hwf) t Hin) as (o & l & Ho & _).
  destruct (Hobj t o Hin Ho) as (o' & Ho' & Hho).
  assert (Hin' : t ∈ all_tests m') by (unfold all_tests; rewrite Hh; exact Hin).
  destruct (ok_good _ _ _ (wf_tests _ _ Hwf') t Hin') as (o2 & l' & Ho2 & _ & Hl' & Hlen').
  assert (o2 = o') by congruence. subst o2.
  exists o, o', l'. repeat split; try assumption.
  rewrite Hlen', Hn, HlenN. lia.
Qed.

(** ** The "down since" text *)

(** C3, as amended: in a run of consecutive failing ticks of a test that
    begins with [last_seen] empty, as a successful tick leaves it,
    [last_seen] is assigned once, at the first failing tick and with the time
    read at that tick, and keeps that text through the following failing
    ticks; the first successful tick after the run clears it. *)
Theorem down_streak_stamps_once (n : nat) (env : nat -> tick_env) (m : MultiPing)
    (s : heap) (t : loc) (o : TestResult) :
  wf m s -> t ∈ all_tests m -> objs s !! t = Some o ->
  last_seen o = "" ->
  (forall i, (i <= n)%nat -> fst (result_of (env i) t) = false) ->
  (exists m' s' o' tr,
     run (S n) env m s = Ok (m', s') /\
     objs s' !! t = Some o' /\
     log s' = log s ++ tr /\
     last_seen o' = "Last seen: " +:+ strftime (env O) t /\
     stamps_of t tr = ["Last seen: " +:+ strftime (env O) t]) /\
  (fst (result_of (env (S n)) t) = true ->
   exists m' s' o',
     run (S (S n)) env m s = Ok (m', s') /\
     objs s' !! t = Some o' /\
     last_seen o' = "") /\
  (forall env1, fst (result_of env1 t) = true ->
   exists s1 o1,
     update_tests env1 m s = Ok (tt, s1) /\
     objs s1 !! t = Some o1 /\
     last_seen o1 = "").
Proof.
  intros Hwf Hin Ho Hempty Hfail. split; [|split].
  - destruct (run_failing (S n) env m s t o Hwf Hin Ho)
      as (m' & s' & o' & tr & Hrun & Ho' & Hlog & Hls & Hst).
    { intros i Hi. apply Hfail. lia. }
    rewrite Hempty in Hls, Hst. exists m', s', o', tr. auto.
  - intros Hup. apply (run_failing_then_up (S n) env m s t o Hwf Hin Ho Hup).
  - intros env1 Hup.
    destruct (update_tests_run env1 m s Hwf) as (s1 & Hrun & Hwf1 & Haft).
    destruct (tick_last_seen _ _ _ _ t o Hwf Haft Hin Ho) as (o1 & tr1 & Ho1 & _ & Hls & _).
    rewrite Hup in Hls. exists s1, o1. auto.
Qed.

(** C9: [TestResult.__init__] leaves a non-empty [last_seen], "Last seen: "
    followed by the time of construction; a failing tick assigns [last_seen]
    only when it is empty; so a test that fails in its first [n] ticks has
    the text of its construction after them, no text was ever assigned to
    it, and the first successful tick clears it. *)
Theorem first_streak_keeps_construction_time (clock : loc -> string)
    (hostname_I : list string) (data : config) (N : Z) (m : MultiPing) (s : heap)
    (t : loc) (n : nat) (env : nat -> tick_env) :
  1 <= N ->
  MultiPing_init clock hostname_I data N empty_heap = Ok (m, s) ->
  t ∈ all_tests m ->
  (forall i, (i < n)%nat -> fst (result_of (env i) t) = false) ->
  (exists o, objs s !! t = Some o /\
             last_seen o = "Last seen: " +:+ clock t /\ last_seen o <> "") /\
  (exists m' s' o',
     run n env m s = Ok (m', s') /\
     objs s' !! t = Some o' /\
     last_seen o' = "Last seen: " +:+ clock t /\
     stamps_of t (log s') = []) /\
  (fst (result_of (env n) t) = true ->
   exists m' s' o',
     run (S n) env m s = Ok (m', s') /\
     objs s' !! t = Some o' /\
     last_seen o' = "").
Proof.
  intros HN Hinit Hin Hfail.
  destruct (MultiPing_init_wf _ _ _ _ _ _ HN Hinit) as (Hwf & _ & _ & Hlog0 & Hnew).
  destruct (Hnew t Hin) as (o & Ho & _ & Hls0 & _).
  split; [|split].
  - exists o. split; [exact Ho|]. split; [exact Hls0|].
    rewrite Hls0. discriminate.
  - destruct (run_failing n env m s t o Hwf Hin Ho Hfail)
      as (m' & s' & o' & tr & Hrun & Ho' & Hlog & Hls & Hst).
    exists m', s', o'. split; [exact Hrun|]. split; [exact Ho'|].
    rewrite Hls0 in Hls, Hst. rewrite last_seen_text_nonempty in Hls, Hst.
    rewrite Hlog, Hlog0. simpl.
    destruct n; auto.
  - intros Hup. apply (run_failing_then_up n env m s t o Hwf Hin Ho Hup).
Qed.

(** ** Port ranges *)

(** C8: a TCP test whose port is "8000-8002" adds exactly three tests, for
    the ports 8000, 8001 and 8002 in this order; each is a TCP test with a
    history list of its own, of the configured length and filled with ".",
    shared neither among the three nor with a test built before. *)
Theorem port_range_8000_8002 (clock : loc -> string) (N : Z) (ip0 proto : string)
    (tests0 ts : list loc) (s : heap) :
  pool clock N ts s ->
  upper proto = "TCP" ->
  exists t1 t2 t3 o1 o2 o3 s',
    load_test clock N ip0 (mkTestCfg (Some proto) (Some (PortStr "8000-8002")))
      tests0 s = Ok (tests0 ++ [t1; t2; t3], s') /\
    (objs s' !! t1 = Some o1 /\ objs s' !! t2 = Some o2 /\ objs s' !! t3 = Some o3) /\
    (protocol o1 = "TCP" /\ protocol o2 = "TCP" /\ protocol o3 = "TCP") /\
    (port o1 = Some 8000 /\ port o2 = Some 8001 /\ port o3 = Some 8002) /\
    (lists s' !! history o1 = Some (repeat "." (Z.to_nat N)) /\
     lists s' !! history o2 = Some (repeat "." (Z.to_nat N)) /\
     lists s' !! history o3 = Some (repeat "." (Z.to_nat N))) /\
    (history o1 <> history o2 /\ history o1 <> history o3 /\ history o2 <> history o3) /\
    own_histories (ts ++ [t1; t2; t3]) s' /\
    (objs s !! t1 = None /\ objs s !! t2 = None /\ objs s !! t3 = None) /\
    extends s s'.
Proof.
  intros Hpool Hproto.
  assert (Hload :
    load_test clock N ip0 (mkTestCfg (Some proto) (Some (PortStr "8000-8002"))) tests0 s
    = expand_range clock N 8000 3 tests0 s).
  { unfold load_test.
    change (upper (default "ICMP" (cfg_protocol
              (mkTestCfg (Some proto) (Some (PortStr "8000-8002"))))))
      with (upper proto).
    rewrite Hproto. reflexivity. }
  destruct (expand_range_run clock N 3 8000 tests0 ts s Hpool)
    as (new & s' & Hrun & Hpool' & Hext & Hlen & Hnew).
  destruct new as [|t1 [|t2 [|t3 [|]]]]; try discriminate Hlen.
  destruct (Hnew 0%nat t1 eq_refl) as (o1 & Ho1 & Hp1 & Hport1 & Hf1).
  destruct (Hnew 1%nat t2 eq_refl) as (o2 & Ho2 & Hp2 & Hport2 & Hf2).
  destruct (Hnew 2%nat t3 eq_refl) as (o3 & Ho3 & Hp3 & Hport3 & Hf3).
  destruct Hpool' as [[Hnd Hgood Hown] Hcons].
  assert (Hl : forall t o, t ∈ [t1; t2; t3] -> objs s' !! t = Some o ->
                           lists s' !! history o = Some (repeat "." (Z.to_nat N))).
  { intros t o Hin Ho. destruct (Hcons t) as (o' & Ho' & _ & _ & _ & Hl'); [set_solver|].
    congruence. }
  apply NoDup_app in Hnd as (_ & _ & Hnd3).
  apply NoDup_cons in Hnd3 as [Hn1 Hnd3]. apply NoDup_cons in Hnd3 as [Hn2 _].
  assert (Hdiff : forall ta tb oa ob,
            ta ∈ [t1; t2; t3] -> tb ∈ [t1; t2; t3] -> ta <> tb ->
            objs s' !! ta = Some oa -> objs s' !! tb = Some ob ->
            history oa <> history ob).
  { intros ta tb oa ob Ha Hb Hne Hoa Hob Heq. apply Hne.
    apply (Hown ta tb oa ob); [set_solver | set_solver | assumption ..]. }
  exists t1, t2, t3, o1, o2, o3, s'.
  split; [rewrite Hload; exact Hrun|].
  split; [auto|]. split; [auto|]. split; [auto|].
  split.
  { repeat split; (eapply Hl; [|eassumption]); set_solver. }
  split.
  { repeat split.
    - apply (Hdiff t1 t2); [set_solver | set_solver | set_solver | assumption ..].
    - apply (Hdiff t1 t3); [set_solver | set_solver | set_solver | assumption ..].
    - apply (Hdiff t2 t3); [set_solver | set_solver | set_solver | assumption ..]. }
  split; [exact Hown|]. split; [auto | exact Hext].
Qed.

Lemma split_without (c : ascii) (s : string) :
  contains_char c s = false -> split c s = [s].
Proof.
  induction s as [|a s IH]; [reflexivity|]. simpl.
  destruct (Ascii.eqb a c); [discriminate|].
  intros H. rewrite (IH H). reflexivity.
Qed.

(** C10: a port range whose start is greater than its end adds no test and
    raises nothing; a host whose tests are that range alone is then given one
    default ICMP test by [Host.__init__], and loading goes on. *)
Theorem inverted_range_gives_default_icmp (clock : loc -> string) (N : Z)
    (self_ips : list string) (ip0 proto port_val start end_ : string) (a b : Z)
    (d : option string) (tests0 : list loc) (hs : list Host) (s : heap) :
  upper proto = "TCP" ->
  split "-" port_val = [start; end_] ->
  py_int start = Some a -> py_int end_ = Some b -> b < a ->
  load_test clock N ip0 (mkTestCfg (Some proto) (Some (PortStr port_val))) tests0 s
    = Ok (tests0, s) /\
  (ip0 ∉ self_ips -> IPv4Address_ok ip0 = true ->
   exists t o s',
     load_host clock N self_ips
       (ip0, mkDetailsCfg d (Some [mkTestCfg (Some proto) (Some (PortStr port_val))]))
       hs s
     = Ok (hs ++ [mkHost ip0 (default ip0 d) [t] N], s') /\
     objs s' !! t = Some o /\
     protocol o = "ICMP" /\ port o = None /\
     lists s' !! history o = Some (repeat "." (Z.to_nat N)) /\
     log s' = log s).
Proof.
  intros Hproto Hsplit Ha Hb Hlt.
  assert (Hload : forall acc,
    load_test clock N ip0 (mkTestCfg (Some proto) (Some (PortStr port_val))) acc s
    = Ok (acc, s)).
  { intros acc. unfold load_test.
    change (upper (default "ICMP" (cfg_protocol
              (mkTestCfg (Some proto) (Some (PortStr port_val))))))
      with (upper proto).
    rewrite Hproto.
    change (String.eqb "TCP" "TCP") with true. cbn [cfg_port]. cbv iota.
    destruct (contains_char "-" port_val) eqn:Hc.
    - rewrite Hsplit, Ha, Hb.
      replace (Z.to_nat (b + 1 - a)) with O by lia. reflexivity.
    - rewrite (split_without _ _ Hc) in Hsplit. discriminate Hsplit. }
  split; [apply Hload|].
  intros Hself Hip. unfold load_host.
  rewrite bool_decide_eq_false_2 by exact Hself.
  simpl cfg_tests. simpl cfg_description.
  assert (Hloads :
    load_tests clock N ip0 [mkTestCfg (Some proto) (Some (PortStr port_val))] [] s
    = Ok ([], s)).
  { simpl load_tests. rewrite (run_bind _ _ _ _ _ (Hload [])). reflexivity. }
  rewrite (run_bind _ _ _ _ _ Hloads).
  unfold Host_init. rewrite Hip.
  eexists _, _, _. split; [reflexivity|]. simpl.
  rewrite lookup_insert_eq. split; [reflexivity|]. simpl.
  rewrite lookup_insert_eq. auto.
Qed.

(** ** The properties on the example installation *)

Lemma example_up_wf : wf example_m example_heap_up.
Proof.
  destruct (update_tests_run env_up example_m example_heap example_wf)
    as (s' & Hrun & [Hi Hok] & _).
  vm_compute in Hrun. injection Hrun as <-.
  split; [exact Hi|].
  exact (tests_ok_log _ _ _ [] Hok).
Qed.

Lemma update_tests_writes_twice_witness :
  exists s' tr,
    update_tests env_down example_m example_heap = Ok (tt, s') /\
    log s' = log example_heap ++ tr /\
    forall t o,
      t ∈ all_tests example_m -> objs example_heap !! t = Some o ->
      let (up, latency) := future_result (future_of env_down t) in
      writes_to (history o) tr =
        [(current_index example_m, "X");
         (current_index example_m, if up then symbol_for_latency latency else "X")].
Proof.
  exact (update_tests_writes_twice env_down example_m example_heap example_wf).
Defined.

(** C2, as stated, fails: in one tick the history list of the first test of
    the example is written twice. *)
Lemma one_tick_writes_twice :
  exists s',
    update_tests env_down example_m example_heap = Ok (tt, s') /\
    writes_to 0 (log s') = [(2, "X"); (2, "X")] /\
    length (writes_to 0 (log s')) <> 1%nat.
Proof.
  eexists. split; [vm_compute; reflexivity|].
  split; [vm_compute; reflexivity|].
  vm_compute. discriminate.
Qed.


Lemma prober_exceptions_are_recorded_witness :
  exists s',
    update_tests env_down example_m example_heap = Ok (tt, s') /\
    forall t o,
      t ∈ all_tests example_m -> objs example_heap !! t = Some o ->
      exists o' l',
        objs s' !! t = Some o' /\
        lists s' !! history o' = Some l' /\
        match future_of env_down t with
        | Raised | TimedOut =>
            latency o' = (-1)%Q /\
            l' !! Z.to_nat (current_index example_m) = Some "X" /\
            (protocol o = "TCP" -> service o' = "closed")
        | Returned up lat =>
            latency o' = (if up then or_zero lat else (-1)%Q) /\
            l' !! Z.to_nat (current_index example_m) =
              Some (if up then symbol_for_latency lat else "X")
        end.
Proof.
  exact (prober_exceptions_are_recorded env_down example_m example_heap example_wf).
Defined.

Lemma tick_index_cycles_witness :
  current_index example_m = 3 - 1 /\
  exists m' s',
    run 4 (fun _ => env_down) example_m example_heap = Ok (m', s') /\
    current_index m' = (3 - 1 - Z.of_nat 4) `mod` 3 /\
    0 <= current_index m' < 3 /\
    current_index (advance m') =
      (if current_index m' =? 0 then 3 - 1 else current_index m' - 1) /\
    Forall (writes_at (fun i => 0 <= i < 3)) (log s') /\
    forall t, t ∈ all_tests example_m ->
      exists o o' l',
        objs example_heap !! t = Some o /\ objs s' !! t = Some o' /\
        history o' = history o /\
        lists s' !! history o' = Some l' /\
        Z.of_nat (length l') = 3.
Proof.
  apply (tick_index_cycles example_clock [] example_config 3 example_m example_heap
           4 (fun _ => env_down)).
  - lia.
  - exact example_start_eq.
Defined.

Lemma get_history_string_renders_witness :
  get_history_string 0 4 5 letters_heap = Ok ("EDCBA", letters_heap).
Proof.
  apply (proj1 get_history_string_renders 0%nat 4 5 (example_test "ICMP" None 0)
           ["A"; "B"; "C"; "D"; "E"] letters_heap).
  - reflexivity.
  - reflexivity.
  - reflexivity.
Defined.

Lemma down_streak_stamps_once_witness :
  exists m' s' o' tr,
    run 2 env_streak example_m example_heap_up = Ok (m', s') /\
    objs s' !! 0%nat = Some o' /\
    log s' = log example_heap_up ++ tr /\
    last_seen o' = "Last seen: " +:+ strftime (env_streak O) 0%nat /\
    stamps_of 0 tr = ["Last seen: " +:+ strftime (env_streak O) 0%nat].
Proof.
  apply (down_streak_stamps_once 1 env_streak example_m example_heap_up 0%nat
           (example_test_up "TCP" (Some 8000) 0 "open")).
  - exact example_up_wf.
  - vm_compute. set_solver.
  - reflexivity.
  - reflexivity.
  - intros [|[|i]] Hi; [reflexivity | reflexivity | lia].
Defined.

(** C3, as stated, fails for a run that starts at the first tick: the first
    test of the example fails in its first tick, nothing is assigned to its
    [last_seen], and the text is not the time read at that tick. *)
Lemma first_tick_failure_is_not_stamped :
  exists m' s' o',
    run 1 (fun _ => env_down) example_m example_heap = Ok (m', s') /\
    fst (result_of env_down 0%nat) = false /\
    objs s' !! 0%nat = Some o' /\
    stamps_of 0 (log s') = [] /\
    last_seen o' <> "Last seen: " +:+ strftime env_down 0%nat.
Proof.
  eexists _, _, _. split; [vm_compute; reflexivity|].
  split; [reflexivity|]. split; [vm_compute; reflexivity|].
  split; [vm_compute; reflexivity|].
  vm_compute. discriminate.
Qed.

Lemma first_streak_keeps_construction_time_witness :
  exists m' s' o',
    run 2 env_streak example_m example_heap = Ok (m', s') /\
    objs s' !! 0%nat = Some o' /\
    last_seen o' = "Last seen: " +:+ example_clock 0%nat /\
    stamps_of 0 (log s') = [].
Proof.
  apply (first_streak_keeps_construction_time example_clock [] example_config 3
           example_m example_heap 0%nat 2 env_streak).
  - lia.
  - exact example_start_eq.
  - vm_compute. set_solver.
  - intros [|[|i]] Hi; [reflexivity | reflexivity | lia].
Defined.

Lemma port_range_8000_8002_witness :
  exists t1 t2 t3 o1 o2 o3 s',
    load_test example_clock 3 "10.0.0.1"
      (mkTestCfg (Some "tcp") (Some (PortStr "8000-8002"))) [] empty_heap
      = Ok ([] ++ [t1; t2; t3], s') /\
    (objs s' !! t1 = Some o1 /\ objs s' !! t2 = Some o2 /\ objs s' !! t3 = Some o3) /\
    (protocol o1 = "TCP" /\ protocol o2 = "TCP" /\ protocol o3 = "TCP") /\
    (port o1 = Some 8000 /\ port o2 = Some 8001 /\ port o3 = Some 8002) /\
    (lists s' !! history o1 = Some (repeat "." (Z.to_nat 3)) /\
     lists s' !! history o2 = Some (repeat "." (Z.to_nat 3)) /\
     lists s' !! history o3 = Some (repeat "." (Z.to_nat 3))) /\
    (history o1 <> history o2 /\ history o1 <> history o3 /\ history o2 <> history o3) /\
    own_histories ([] ++ [t1; t2; t3]) s' /\
    (objs empty_heap !! t1 = None /\ objs empty_heap !! t2 = None /\
     objs empty_heap !! t3 = None) /\
    extends empty_heap s'.
Proof.
  apply (port_range_8000_8002 example_clock 3 "10.0.0.1" "tcp" [] [] empty_heap).
  - exact (pool_empty example_clock 3).
  - reflexivity.
Defined.

Lemma inverted_range_gives_default_icmp_witness :
  load_test example_clock 3 "10.0.0.3"
    (mkTestCfg (Some "TCP") (Some (PortStr "8002-8000"))) [] empty_heap
    = Ok ([], empty_heap) /\
  exists t o s',
    load_host example_clock 3 []
      ("10.0.0.3",
       mkDetailsCfg None (Some [mkTestCfg (Some "TCP") (Some (PortStr "8002-8000"))]))
      [] empty_heap
    = Ok ([] ++ [mkHost "10.0.0.3" (default "10.0.0.3" None) [t] 3], s') /\
    objs s' !! t = Some o /\
    protocol o = "ICMP" /\ port o = None /\
    lists s' !! history o = Some (repeat "." (Z.to_nat 3)) /\
    log s' = log empty_heap.
Proof.
  destruct (inverted_range_gives_default_icmp example_clock 3 [] "10.0.0.3" "TCP"
              "8002-8000" "8002" "8000" 8002 8000 None [] [] empty_heap)
    as [H1 H2].
  - reflexivity.
  - reflexivity.
  - reflexivity.
  - reflexivity.
  - lia.
  - split; [exact H1|]. apply H2.
    + apply not_elem_of_nil.
    + reflexivity.
Defined.

(** * Further properties *)

(** ** What [load_config] builds *)

Lemma port_matches_extends (s s' : heap) (ts : list loc) :
  extends s s' ->
  (forall t, t ∈ ts -> exists o, objs s !! t = Some o /\ port_matches o) ->
  forall t, t ∈ ts -> exists o, objs s' !! t = Some o /\ port_matches o.
Proof.
  intros Hext H t Hin. destruct (H t Hin) as (o & Ho & Hp).
  exists o. split; [apply (ext_objs _ _ Hext _ _ Ho) | exact Hp].
Qed.

Lemma load_test_ports (clock : loc -> string) (N : Z) (ip0 : string) (test : test_cfg)
    (tests0 ts : list loc) (s : heap) (tests' : list loc) (s' : heap) :
  pool clock N ts s ->
  load_test clock N ip0 test tests0 s = Ok (tests', s') ->
  exists new, tests' = tests0 ++ new /\
              forall t, t ∈ new -> exists o, objs s' !! t = Some o /\ port_matches o.
Proof.
  intros Hpool. unfold load_test.
  assert (Hone : forall proto pt,
    (upper proto = "ICMP" /\ pt = None) \/ (upper proto = "TCP" /\ exists p, pt = Some p) ->
    (t <- TestResult_init clock proto pt N ;; ret (tests0 ++ [t])) s = Ok (tests', s') ->
    exists new, tests' = tests0 ++ new /\
                forall t, t ∈ new -> exists o, objs s' !! t = Some o /\ port_matches o).
  { intros proto pt Hproto H.
    destruct (TestResult_init_run clock proto pt N ts s Hpool)
      as (t & s1 & o & Hrun & _ & _ & Ho & Hp & Hport & _).
    { destruct Hproto as [[? _]|[? _]]; auto. }
    rewrite (run_bind _ _ _ _ _ Hrun) in H. injection H as <- <-.
    exists [t]. split; [reflexivity|].
    intros t' Hin. apply list_elem_of_singleton in Hin. subst t'.
    exists o. split; [exact Ho|]. unfold port_matches. rewrite Hp, Hport.
    destruct Hproto as [[-> ->]|[-> [p ->]]]; eauto. }
  destruct (String.eqb (upper (default "ICMP" (cfg_protocol test))) "TCP").
  - destruct (cfg_port test) as [[port_num|port_val]|]; [| |discriminate].
    + apply Hone. right. split; [reflexivity | eauto].
    + destruct (contains_char "-" port_val).
      * destruct (split "-" port_val) as [|start [|end_ [|]]]; try discriminate.
        destruct (py_int start) as [a|]; [|discriminate].
        destruct (py_int end_) as [b|]; [|discriminate].
        destruct (expand_range_run clock N (Z.to_nat (b + 1 - a)) a tests0 ts s Hpool)
          as (new & s1 & Hrun & _ & _ & _ & Hnew).
        rewrite Hrun. intros H. injection H as <- <-. exists new.
        split; [reflexivity|].
        intros t Hin. apply list_elem_of_lookup in Hin as [i Hi].
        destruct (Hnew i t Hi) as (o & Ho & Hp & Hport & _).
        exists o. split; [exact Ho|]. left. eauto.
      * destruct (py_int port_val) as [port_num|]; [|discriminate].
        apply Hone. right. split; [reflexivity | eauto].
  - apply Hone. left. split; reflexivity.
Qed.

Lemma load_tests_ports (clock : loc -> string) (N : Z) (ip0 : string)
    (test_list : list test_cfg) :
  forall (tests0 ts : list loc) (s : heap) (tests' : list loc) (s' : heap),
    pool clock N ts s ->
    load_tests clock N ip0 test_list tests0 s = Ok (tests', s') ->
    exists new, tests' = tests0 ++ new /\
                forall t, t ∈ new -> exists o, objs s' !! t = Some o /\ port_matches o.
Proof.
  induction test_list as [|test rest IH]; intros tests0 ts s tests' s' Hpool H.
  - injection H as <- <-. exists []. rewrite app_nil_r. split; [reflexivity|].
    intros t Hin. apply elem_of_nil in Hin. destruct Hin.
  - simpl in H. apply bind_Ok_inv in H as (tests1 & s1 & H1 & H2).
    destruct (load_test_ports _ _ _ _ _ _ _ _ _ Hpool H1) as (new1 & E1 & Hp1).
    destruct (load_test_run _ _ _ _ _ _ _ _ _ Hpool H1) as (new1' & E1' & Hpool1 & Hext1).
    assert (new1' = new1) by (rewrite E1 in E1'; apply (app_inv_head _ _ _ (eq_sym E1'))).
    subst new1' tests1.
    destruct (IH _ _ _ _ _ Hpool1 H2) as (new2 & -> & Hp2).
    destruct (load_tests_run _ _ _ _ _ _ _ _ _ Hpool1 H2) as (_ & _ & _ & Hext2).
    exists (new1 ++ new2). rewrite <- app_assoc. split; [reflexivity|].
    intros t Hin. apply elem_of_app in Hin as [Hin|Hin].
    + apply (port_matches_extends s1 s' new1 Hext2 Hp1 t Hin).
    + apply (Hp2 t Hin).
Qed.

Lemma Host_init_shape (clock : loc -> string) (ip0 d : string) (tests0 : list loc)
    (N : Z) (s : heap) (host : Host) (s' : heap) :
  Host_init clock ip0 d tests0 N s = Ok (host, s') ->
  ip host = ip0 /\ description host = d /\ host_history_length host = N /\
  tests host <> [] /\ IPv4Address_ok ip0 = true /\
  (tests0 <> [] -> tests host = tests0 /\ s' = s).
Proof.
  unfold Host_init. destruct (IPv4Address_ok ip0); [|discriminate].
  destruct tests0 as [|t0 tests0]; intros H.
  - injection H as <- <-. simpl.
    split; [reflexivity|]. split; [reflexivity|]. split; [reflexivity|].
    split; [discriminate|]. split; [reflexivity|].
    intros Hne. exfalso. apply Hne. reflexivity.
  - injection H as <- <-. simpl.
    split; [reflexivity|]. split; [reflexivity|]. split; [reflexivity|].
    split; [discriminate|]. split; [reflexivity|].
    intros _. split; reflexivity.
Qed.

Lemma load_host_shape (clock : loc -> string) (N : Z) (self_ips : list string)
    (entry : string * details_cfg) (hs : list Host) (s : heap)
    (hs' : list Host) (s' : heap) :
  load_host clock N self_ips entry hs s = Ok (hs', s') ->
  ((fst entry ∈ self_ips) /\ hs' = hs /\ s' = s) \/
  ((fst entry ∉ self_ips) /\ exists h, hs' = hs ++ [h] /\ host_of_entry N entry h).
Proof.
  unfold load_host. destruct entry as [ip0 details]. simpl fst. simpl snd.
  destruct (bool_decide_reflect (ip0 ∈ self_ips)) as [Hin|Hnin].
  { intros H. injection H as <- <-. left. auto. }
  intros H. right. split; [exact Hnin|].
  apply bind_Ok_inv in H as (ts1 & s1 & _ & H).
  apply bind_Ok_inv in H as (host & s2 & H2 & H).
  injection H as <- <-.
  destruct (Host_init_shape _ _ _ _ _ _ _ _ H2) as (A & B & C & D & E & _).
  exists host. split; [reflexivity|]. repeat split; assumption.
Qed.

Lemma load_host_ports (clock : loc -> string) (N : Z) (self_ips : list string)
    (entry : string * details_cfg) (hs : list Host) (s : heap)
    (hs' : list Host) (s' : heap) :
  pool clock N (flat_map tests hs) s ->
  (forall t, t ∈ flat_map tests hs -> exists o, objs s !! t = Some o /\ port_matches o) ->
  load_host clock N self_ips entry hs s = Ok (hs', s') ->
  forall t, t ∈ flat_map tests hs' -> exists o, objs s' !! t = Some o /\ port_matches o.
Proof.
  intros Hpool Hold Hload.
  destruct (load_host_run _ _ _ _ _ _ _ _ Hpool Hload) as [_ Hext].
  revert Hload. unfold load_host. destruct entry as [ip0 details].
  destruct (bool_decide (ip0 ∈ self_ips)).
  { intros H. injection H as <- <-. exact Hold. }
  intros H. apply bind_Ok_inv in H as (ts1 & s1 & H1 & H).
  apply bind_Ok_inv in H as (host & s2 & H2 & H).
  injection H as <- <-.
  assert (Hicmp : forall ts0 s0 l s3,
            pool clock N ts0 s0 ->
            (t <- TestResult_init clock "ICMP" None N ;; ret [t]) s0 = Ok (l, s3) ->
            pool clock N (ts0 ++ l) s3 /\ extends s0 s3 /\
            forall t, t ∈ l -> exists o, objs s3 !! t = Some o /\ port_matches o).
  { intros ts0 s0 l s3 Hp0 H.
    destruct (TestResult_init_run clock "ICMP" None N ts0 s0 Hp0)
      as (t & s4 & o & Hrun & Hpool4 & Hext4 & Ho & Hp & Hport & _); [left; reflexivity|].
    rewrite (run_bind _ _ _ _ _ Hrun) in H. injection H as <- <-.
    split; [exact Hpool4|]. split; [exact Hext4|].
    intros t' Hin. apply list_elem_of_singleton in Hin. subst t'.
    exists o. split; [exact Ho|]. right. auto. }
  assert (H1' : pool clock N (flat_map tests hs ++ ts1) s1 /\ extends s s1 /\
                forall t, t ∈ ts1 -> exists o, objs s1 !! t = Some o /\ port_matches o).
  { destruct (cfg_tests details) as [[|test rest]|];
      try (apply (Hicmp _ _ _ _ Hpool H1)).
    destruct (load_tests_run _ _ _ _ _ _ _ _ _ Hpool H1) as (new & E & Hp & He).
    destruct (load_tests_ports _ _ _ _ _ _ _ _ _ Hpool H1) as (new' & E' & Hports).
    simpl in E, E'. subst. auto. }
  destruct H1' as (Hpool1 & Hext1 & Hports1).
  intros t Hin. rewrite flat_map_app in Hin. simpl in Hin. rewrite app_nil_r in Hin.
  apply elem_of_app in Hin as [Hin|Hin].
  { apply (port_matches_extends s s2 _ Hext Hold t Hin). }
  revert H2 Hin. unfold Host_init. destruct (IPv4Address_ok ip0); [|discriminate].
  destruct ts1 as [|t0 ts1].
  - rewrite run_bind_assoc. intros H2. apply bind_Ok_inv in H2 as (t1 & s3 & H3 & H2).
    injection H2 as <- <-. simpl. rewrite app_nil_r in Hpool1.
    destruct (Hicmp (flat_map tests hs) s1 [t1] s3 Hpool1) as (_ & _ & Hp3).
    { rewrite (run_bind _ _ _ _ _ H3). reflexivity. }
    exact (Hp3 t).
  - intros H2. injection H2 as <- <-. simpl. exact (Hports1 t).
Qed.

Lemma load_host_item_shape (clock : loc -> string) (N : Z) (self_ips : list string)
    (host_item : list (string * details_cfg)) :
  forall (hs : list Host) (s : heap) (hs' : list Host) (s' : heap),
    load_host_item clock N self_ips host_item hs s = Ok (hs', s') ->
    exists new, hs' = hs ++ new /\
                Forall2 (host_of_entry N) (kept_entries self_ips host_item) new.
Proof.
  induction host_item as [|entry rest IH]; intros hs s hs' s' H.
  - injection H as <- <-. exists []. rewrite app_nil_r. split; [reflexivity | constructor].
  - simpl in H. apply bind_Ok_inv in H as (hs1 & s1 & H1 & H2).
    destruct (IH _ _ _ _ H2) as (new2 & -> & Hnew2).
    unfold kept_entries in *.
    destruct (load_host_shape _ _ _ _ _ _ _ _ H1) as [(Hin & -> & ->)|(Hnin & h & -> & Hh)].
    + exists new2. split; [reflexivity|].
      rewrite filter_cons_False; [exact Hnew2 | intros Hn; exact (Hn Hin)].
    + exists (h :: new2). rewrite <- app_assoc. split; [reflexivity|].
      rewrite filter_cons_True by exact Hnin. constructor; assumption.
Qed.

Lemma load_host_items_shape (clock : loc -> string) (N : Z) (self_ips : list string)
    (items : list (list (string * details_cfg))) :
  forall (hs : list Host) (s : heap) (hs' : list Host) (s' : heap),
    load_host_items clock N self_ips items hs s = Ok (hs', s') ->
    exists new, hs' = hs ++ new /\
                Forall2 (host_of_entry N) (kept_entries self_ips (concat items)) new.
Proof.
  induction items as [|host_item rest IH]; intros hs s hs' s' H.
  - injection H as <- <-. exists []. rewrite app_nil_r. split; [reflexivity | constructor].
  - simpl in H. apply bind_Ok_inv in H as (hs1 & s1 & H1 & H2).
    destruct (load_host_item_shape _ _ _ _ _ _ _ _ H1) as (new1 & -> & Hnew1).
    destruct (IH _ _ _ _ H2) as (new2 & -> & Hnew2).
    exists (new1 ++ new2). rewrite <- app_assoc. split; [reflexivity|].
    unfold kept_entries in *. simpl. rewrite filter_app.
    apply Forall2_app; assumption.
Qed.

Lemma load_host_item_ports (clock : loc -> string) (N : Z) (self_ips : list string)
    (host_item : list (string * details_cfg)) :
  forall (hs : list Host) (s : heap) (hs' : list Host) (s' : heap),
    pool clock N (flat_map tests hs) s ->
    (forall t, t ∈ flat_map tests hs -> exists o, objs s !! t = Some o /\ port_matches o) ->
    load_host_item clock N self_ips host_item hs s = Ok (hs', s') ->
    forall t, t ∈ flat_map tests hs' -> exists o, objs s' !! t = Some o /\ port_matches o.
Proof.
  induction host_item as [|entry rest IH]; intros hs s hs' s' Hpool Hold H.
  - injection H as <- <-. exact Hold.
  - simpl in H. apply bind_Ok_inv in H as (hs1 & s1 & H1 & H2).
    destruct (load_host_run _ _ _ _ _ _ _ _ Hpool H1) as [Hpool1 _].
    apply (IH _ _ _ _ Hpool1 (load_host_ports _ _ _ _ _ _ _ _ Hpool Hold H1) H2).
Qed.

Lemma load_host_items_ports (clock : loc -> string) (N : Z) (self_ips : list string)
    (items : list (list (string * details_cfg))) :
  forall (hs : list Host) (s : heap) (hs' : list Host) (s' : heap),
    pool clock N (flat_map tests hs) s ->
    (forall t, t ∈ flat_map tests hs -> exists o, objs s !! t = Some o /\ port_matches o) ->
    load_host_items clock N self_ips items hs s = Ok (hs', s') ->
    forall t, t ∈ flat_map tests hs' -> exists o, objs s' !! t = Some o /\ port_matches o.
Proof.
  induction items as [|host_item rest IH]; intros hs s hs' s' Hpool Hold H.
  - injection H as <- <-. exact Hold.
  - simpl in H. apply bind_Ok_inv in H as (hs1 & s1 & H1 & H2).
    destruct (load_host_item_run _ _ _ _ _ _ _ _ Hpool H1) as [Hpool1 _].
    apply (IH _ _ _ _ Hpool1 (load_host_item_ports _ _ _ _ _ _ _ _ Hpool Hold H1) H2).
Qed.

(** ** Errors of [load_config] *)

Lemma ok_or_exit_bind {A B} (c : M A) (k : A -> M B) (s : heap) :
  ok_or_exit (c s) ->
  (forall a s1, c s = Ok (a, s1) -> ok_or_exit (k a s1)) ->
  ok_or_exit (bind c k s).
Proof.
  unfold bind. destruct (c s) as [[a s1]|e]; intros Hc Hk; [apply Hk; reflexivity | exact Hc].
Qed.

Lemma TestResult_init_total (clock : loc -> string) (proto : string) (pt : option Z)
    (N : Z) (s : heap) :
  exists t s', TestResult_init clock proto pt N s = Ok (t, s').
Proof. eexists _, _. reflexivity. Qed.

Lemma expand_range_total (clock : loc -> string) (N : Z) (n : nat) :
  forall (p : Z) (tests0 : list loc) (s : heap),
    exists tests' s', expand_range clock N p n tests0 s = Ok (tests', s').
Proof.
  induction n as [|n IH]; intros p tests0 s.
  - eexists _, _. reflexivity.
  - destruct (TestResult_init_total clock "TCP" (Some p) N s) as (t & s1 & H1).
    destruct (IH (p + 1) (tests0 ++ [t]) s1) as (tests' & s' & H2).
    exists tests', s'. simpl. rewrite (run_bind _ _ _ _ _ H1). exact H2.
Qed.

Lemma load_test_exit (clock : loc -> string) (N : Z) (ip0 : string) (test : test_cfg)
    (tests0 : list loc) (s : heap) :
  ok_or_exit (load_test clock N ip0 test tests0 s).
Proof.
  unfold load_test.
  assert (Hone : forall proto pt,
            ok_or_exit ((t <- TestResult_init clock proto pt N ;; ret (tests0 ++ [t])) s)).
  { intros proto pt. destruct (TestResult_init_total clock proto pt N s) as (t & s1 & H1).
    rewrite (run_bind _ _ _ _ _ H1). exact I. }
  destruct (String.eqb (upper (default "ICMP" (cfg_protocol test))) "TCP"); [|apply Hone].
  destruct (cfg_port test) as [[port_num|port_val]|]; [apply Hone | | exact I].
  destruct (contains_char "-" port_val).
  - destruct (split "-" port_val) as [|start [|end_ [|]]]; try exact I.
    destruct (py_int start) as [a|]; [|exact I].
    destruct (py_int end_) as [b|]; [|exact I].
    destruct (expand_range_total clock N (Z.to_nat (b + 1 - a)) a tests0 s) as (r & s' & ->).
    exact I.
  - destruct (py_int port_val); [apply Hone | exact I].
Qed.

Lemma load_tests_exit (clock : loc -> string) (N : Z) (ip0 : string)
    (test_list : list test_cfg) :
  forall (tests0 : list loc) (s : heap),
    ok_or_exit (load_tests clock N ip0 test_list tests0 s).
Proof.
  induction test_list as [|test rest IH]; intros tests0 s; [exact I|].
  simpl. apply ok_or_exit_bind; [apply load_test_exit | intros; apply IH].
Qed.

Lemma Host_init_exit (clock : loc -> string) (ip0 d : string) (tests0 : list loc)
    (N : Z) (s : heap) :
  ok_or_exit (Host_init clock ip0 d tests0 N s).
Proof.
  unfold Host_init. destruct (IPv4Address_ok ip0); [|exact I].
  destruct tests0; exact I.
Qed.

Lemma load_host_exit (clock : loc -> string) (N : Z) (self_ips : list string)
    (entry : string * details_cfg) (hs : list Host) (s : heap) :
  ok_or_exit (load_host clock N self_ips entry hs s).
Proof.
  unfold load_host. destruct entry as [ip0 details].
  destruct (bool_decide (ip0 ∈ self_ips)); [exact I|].
  apply ok_or_exit_bind.
  - destruct (cfg_tests details) as [[|test rest]|]; try exact I. apply load_tests_exit.
  - intros ts1 s1 _. apply ok_or_exit_bind; [apply Host_init_exit | intros; exact I].
Qed.

Lemma load_host_item_exit (clock : loc -> string) (N : Z) (self_ips : list string)
    (host_item : list (string * details_cfg)) :
  forall (hs : list Host) (s : heap),
    ok_or_exit (load_host_item clock N self_ips host_item hs s).
Proof.
  induction host_item as [|entry rest IH]; intros hs s; [exact I|].
  simpl. apply ok_or_exit_bind; [apply load_host_exit | intros; apply IH].
Qed.

Lemma load_host_items_exit (clock : loc -> string) (N : Z) (self_ips : list string)
    (items : list (list (string * details_cfg))) :
  forall (hs : list Host) (s : heap),
    ok_or_exit (load_host_items clock N self_ips items hs s).
Proof.
  induction items as [|host_item rest IH]; intros hs s; [exact I|].
  simpl. apply ok_or_exit_bind; [apply load_host_item_exit | intros; apply IH].
Qed.

Lemma load_config_pool (clock : loc -> string) (N : Z) (hostname_I : list string)
    (data : config) (hs : list Host) (s : heap) :
  load_config clock N hostname_I data empty_heap = Ok (hs, s) ->
  pool clock N (flat_map tests hs) s /\
  forall t, t ∈ flat_map tests hs -> exists o, objs s !! t = Some o /\ port_matches o.
Proof.
  unfold load_config. destruct (cfg_hosts data) as [items|]; [|discriminate].
  intros H. split.
  - apply (load_host_items_run clock N (if cfg_ignore_self data then hostname_I else [])
             items [] empty_heap hs s (pool_empty clock N) H).
  - apply (load_host_items_ports clock N (if cfg_ignore_self data then hostname_I else [])
             items [] empty_heap hs s (pool_empty clock N)); [|exact H].
    intros t Hin. apply elem_of_nil in Hin. destruct Hin.
Qed.

Lemma Forall2_host_of_entry (N : Z) (entries : list (string * details_cfg))
    (hs : list Host) :
  Forall2 (host_of_entry N) entries hs ->
  map ip hs = map fst entries /\
  map description hs =
    map (fun e => default (fst e) (cfg_description (snd e))) entries /\
  Forall (fun h => host_history_length h = N /\ tests h <> [] /\
                   IPv4Address_ok (ip h) = true) hs.
Proof.
  induction 1 as [|e h entries hs (A & B & C & D & E) _ (IH1 & IH2 & IH3)].
  - repeat split; constructor.
  - simpl. rewrite A, B, IH1, IH2. repeat split. constructor; [|exact IH3].
    rewrite A. auto.
Qed.

(** X1: when [load_config] succeeds, the hosts are the entries of the
    document that are not skipped, in document order: each has the address of
    its entry, the description of the entry or the address when there is
    none, the configured history length, at least one test and a well-formed
    address; without [ignore_self] no entry is skipped. *)
Theorem load_config_hosts_in_order (clock : loc -> string) (N : Z)
    (hostname_I : list string) (data : config) (s : heap)
    (hs : list Host) (s' : heap) :
  load_config clock N hostname_I data s = Ok (hs, s') ->
  exists items,
    cfg_hosts data = Some items /\
    let kept := filter (fun e => fst e ∉ (if cfg_ignore_self data then hostname_I else []))
                       (concat items) in
    map ip hs = map fst kept /\
    map description hs = map (fun e => default (fst e) (cfg_description (snd e))) kept /\
    Forall (fun h => host_history_length h = N /\ tests h <> [] /\
                     IPv4Address_ok (ip h) = true) hs /\
    (cfg_ignore_self data = false -> kept = concat items).
Proof.
  unfold load_config. destruct (cfg_hosts data) as [items|]; [|discriminate].
  intros H. exists items. split; [reflexivity|].
  destruct (load_host_items_shape _ _ _ _ _ _ _ _ H) as (new & E & Hnew).
  simpl in E. subst new.
  destruct (Forall2_host_of_entry _ _ _ Hnew) as (A & B & C).
  cbv zeta. split; [exact A|]. split; [exact B|]. split; [exact C|].
  intros ->. clear. induction (concat items) as [|e l IH]; [reflexivity|].
  rewrite filter_cons_True by apply not_elem_of_nil. f_equal. exact IH.
Qed.

Lemma load_config_hosts_in_order_witness :
  exists items,
    cfg_hosts example_config = Some items /\
    let kept := filter (fun e => fst e ∉ (if cfg_ignore_self example_config
                                          then [] else []))
                       (concat items) in
    map ip (hosts example_m) = map fst kept /\
    map description (hosts example_m)
      = map (fun e => default (fst e) (cfg_description (snd e))) kept /\
    Forall (fun h => host_history_length h = 3 /\ tests h <> [] /\
                     IPv4Address_ok (ip h) = true) (hosts example_m) /\
    (cfg_ignore_self example_config = false -> kept = concat items).
Proof.
  apply (load_config_hosts_in_order example_clock 3 [] example_config empty_heap
           (hosts example_m) example_heap).
  vm_compute. reflexivity.
Defined.

(** X2: an entry with a malformed IPv4 address that is not skipped makes
    [load_config] end in [sys.exit]: no instance is built. *)
Theorem invalid_ip_is_fatal (clock : loc -> string) (N : Z)
    (hostname_I : list string) (data : config) (s : heap)
    (items : list (list (string * details_cfg))) (entry : string * details_cfg) :
  cfg_hosts data = Some items ->
  entry ∈ concat items ->
  fst entry ∉ (if cfg_ignore_self data then hostname_I else []) ->
  IPv4Address_ok (fst entry) = false ->
  exists e, load_config clock N hostname_I data s = Raise (SystemExit e).
Proof.
  intros Hitems Hin Hkept Hbad.
  destruct (load_config clock N hostname_I data s) as [[hs s']|e] eqn:Hload.
  - exfalso. unfold load_config in Hload. rewrite Hitems in Hload.
    destruct (load_host_items_shape _ _ _ _ _ _ _ _ Hload) as (new & _ & Hnew).
    assert (Hk : entry ∈ kept_entries (if cfg_ignore_self data then hostname_I else [])
                         (concat items)).
    { unfold kept_entries. apply list_elem_of_filter. split; assumption. }
    apply list_elem_of_lookup in Hk as [i Hi].
    destruct (Forall2_lookup_l _ _ _ _ _ Hnew Hi) as (h & _ & (_ & _ & _ & _ & Hok)).
    congruence.
  - assert (Hexit : ok_or_exit (load_config clock N hostname_I data s)).
    { unfold load_config. rewrite Hitems. apply load_host_items_exit. }
    rewrite Hload in Hexit. destruct e as [|e|]; try contradiction. exists e. reflexivity.
Qed.

Lemma invalid_ip_is_fatal_witness :
  exists e, load_config example_clock 3 [] bad_ip_config empty_heap
            = Raise (SystemExit e).
Proof.
  apply (invalid_ip_is_fatal example_clock 3 [] bad_ip_config empty_heap
           [[("10.0.0.1", mkDetailsCfg None None)];
            [("10.0.0.256", mkDetailsCfg None None)]]
           ("10.0.0.256", mkDetailsCfg None None)).
  - reflexivity.
  - simpl. apply list_elem_of_In. simpl. right. left. reflexivity.
  - simpl. apply not_elem_of_nil.
  - reflexivity.
Defined.

Lemma run_keeps_fields (n : nat) :
  forall (env : nat -> tick_env) (m : MultiPing) (s : heap) (t : loc) (o : TestResult),
    wf m s -> t ∈ all_tests m -> objs s !! t = Some o ->
    exists m' s' o',
      run n env m s = Ok (m', s') /\
      objs s' !! t = Some o' /\
      protocol o' = protocol o /\ port o' = port o.
Proof.
  induction n as [|n IH]; intros env m s t o Hwf Hin Ho.
  - exists m, s, o. auto.
  - destruct (run_step n env m s Hwf) as (s1 & _ & Hwf1 & Haft & Hstep).
    pose proof (tick_obj _ _ _ _ Haft t o Hin Ho) as Ho1.
    destruct (IH (fun k => env (S k)) (advance m) s1 t _ Hwf1 Hin Ho1)
      as (m' & s' & o' & Hrun & Ho' & Hp & Hport).
    exists m', s', o'. rewrite Hstep. split; [exact Hrun|]. split; [exact Ho'|].
    rewrite Hp, Hport. unfold recorded.
    destruct (fst (result_of (env O) t)); split; reflexivity.
Qed.

(** X3: every test of the instance [MultiPing.__init__] builds is a TCP test
    with a port or an ICMP test without one, and it stays so through any
    number of iterations of [run]. *)
Theorem tcp_has_port_icmp_has_none (clock : loc -> string) (hostname_I : list string)
    (data : config) (N : Z) (m : MultiPing) (s : heap)
    (t : loc) (n : nat) (env : nat -> tick_env) :
  1 <= N ->
  MultiPing_init clock hostname_I data N empty_heap = Ok (m, s) ->
  t ∈ all_tests m ->
  exists m' s' o',
    run n env m s = Ok (m', s') /\
    objs s' !! t = Some o' /\
    ((protocol o' = "TCP" /\ exists p, port o' = Some p) \/
     (protocol o' = "ICMP" /\ port o' = None)).
Proof.
  intros HN Hinit Hin.
  destruct (MultiPing_init_wf _ _ _ _ _ _ HN Hinit) as (Hwf & _).
  unfold MultiPing_init in Hinit.
  apply bind_Ok_inv in Hinit as (hs & s1 & Hload & Hret). injection Hret as <- <-.
  destruct (load_config_pool _ _ _ _ _ _ Hload) as [_ Hports].
  destruct (Hports t Hin) as (o & Ho & Hpm).
  destruct (run_keeps_fields n env _ _ t o Hwf Hin Ho) as (m' & s' & o' & Hrun & Ho' & Hp & Hport).
  exists m', s', o'. split; [exact Hrun|]. split; [exact Ho'|].
  rewrite Hp, Hport. exact Hpm.
Qed.

Lemma tcp_has_port_icmp_has_none_witness :
  exists m' s' o',
    run 2 env_streak example_m example_heap = Ok (m', s') /\
    objs s' !! 3%nat = Some o' /\
    ((protocol o' = "TCP" /\ exists p, port o' = Some p) \/
     (protocol o' = "ICMP" /\ port o' = None)).
Proof.
  apply (tcp_has_port_icmp_has_none example_clock [] example_config 3
           example_m example_heap 3%nat 2 env_streak).
  - lia.
  - exact example_start_eq.
  - vm_compute. set_solver.
Defined.

(** ** Port ranges in general *)

(** X4: a TCP test whose port is a range "a-b" with [a <= b] adds exactly
    [b - a + 1] tests, pairwise different and new, for the ports
    [a, a+1, ..., b] in this order, each a TCP test with a history of the
    configured length filled with ".". *)
Theorem port_range_expands_in_order (clock : loc -> string) (N : Z)
    (ip0 proto port_val start end_ : string) (a b : Z)
    (tests0 ts : list loc) (s : heap) :
  pool clock N ts s ->
  upper proto = "TCP" ->
  split "-" port_val = [start; end_] ->
  py_int start = Some a -> py_int end_ = Some b -> a <= b ->
  exists new s',
    load_test clock N ip0 (mkTestCfg (Some proto) (Some (PortStr port_val))) tests0 s
      = Ok (tests0 ++ new, s') /\
    Z.of_nat (length new) = b - a + 1 /\
    NoDup new /\
    forall i t, new !! i = Some t ->
      exists o,
        objs s' !! t = Some o /\ objs s !! t = None /\
        protocol o = "TCP" /\ port o = Some (a + Z.of_nat i) /\
        lists s' !! history o = Some (repeat "." (Z.to_nat N)).
Proof.
  intros Hpool Hproto Hsplit Ha Hb Hle.
  destruct (expand_range_run clock N (Z.to_nat (b + 1 - a)) a tests0 ts s Hpool)
    as (new & s' & Hrun & Hpool' & Hext & Hlen & Hnew).
  exists new, s'. split.
  { unfold load_test.
    change (upper (default "ICMP" (cfg_protocol
              (mkTestCfg (Some proto) (Some (PortStr port_val))))))
      with (upper proto).
    rewrite Hproto.
    change (String.eqb "TCP" "TCP") with true. cbn [cfg_port]. cbv iota.
    destruct (contains_char "-" port_val) eqn:Hc.
    - rewrite Hsplit, Ha, Hb. exact Hrun.
    - rewrite (split_without _ _ Hc) in Hsplit. discriminate Hsplit. }
  split; [lia|].
  destruct Hpool' as [[Hnd _ _] Hcons].
  split; [apply NoDup_app in Hnd as (_ & _ & Hnd); exact Hnd|].
  intros i t Hi.
  destruct (Hnew i t Hi) as (o & Ho & Hp & Hport & Hfresh).
  exists o. split; [exact Ho|]. split; [exact Hfresh|]. split; [exact Hp|].
  split; [exact Hport|].
  destruct (Hcons t) as (o' & Ho' & _ & _ & _ & Hl).
  { apply elem_of_app. right. apply list_elem_of_lookup. eauto. }
  congruence.
Qed.

Lemma port_range_expands_in_order_witness :
  exists new s',
    load_test example_clock 3 "10.0.0.1"
      (mkTestCfg (Some "tcp") (Some (PortStr "20-25"))) [] empty_heap
      = Ok ([] ++ new, s') /\
    Z.of_nat (length new) = 25 - 20 + 1 /\
    NoDup new /\
    forall i t, new !! i = Some t ->
      exists o,
        objs s' !! t = Some o /\ objs empty_heap !! t = None /\
        protocol o = "TCP" /\ port o = Some (20 + Z.of_nat i) /\
        lists s' !! history o = Some (repeat "." (Z.to_nat 3)).
Proof.
  apply (port_range_expands_in_order example_clock 3 "10.0.0.1" "tcp" "20-25" "20" "25"
           20 25 [] [] empty_heap).
  - exact (pool_empty example_clock 3).
  - reflexivity.
  - reflexivity.
  - reflexivity.
  - reflexivity.
  - lia.
Defined.

Lemma split_length (c : ascii) (s : string) :
  length (split c s) = S (count_char c s).
Proof.
  induction s as [|a s IH]; [reflexivity|]. simpl.
  destruct (Ascii.eqb a c); simpl; [rewrite IH; reflexivity|].
  destruct (split c s) as [|x xs]; [discriminate IH | exact IH].
Qed.

Lemma split_parts_clean (c : ascii) (s : string) :
  forall x, x ∈ split c s -> contains_char c x = false.
Proof.
  induction s as [|a s IH]; intros x Hin; simpl in Hin.
  - apply list_elem_of_singleton in Hin. subst x. reflexivity.
  - destruct (Ascii.eqb a c) eqn:E.
    + apply elem_of_cons in Hin as [->|Hin]; [reflexivity | apply IH; exact Hin].
    + destruct (split c s) as [|y ys].
      * apply list_elem_of_singleton in Hin. subst x. simpl. rewrite E. reflexivity.
      * apply elem_of_cons in Hin as [->|Hin].
        -- simpl. rewrite E. apply IH. left.
        -- apply IH. right. exact Hin.
Qed.

Lemma lstrip_contains (c : ascii) (s : string) :
  contains_char c s = false -> contains_char c (lstrip s) = false.
Proof.
  induction s as [|a s IH]; [reflexivity|]. simpl.
  destruct (Ascii.eqb a c) eqn:E; [discriminate|]. intros H.
  destruct (is_space a); [apply IH; exact H|]. simpl. rewrite E. exact H.
Qed.

Lemma rstrip_contains (c : ascii) (s : string) :
  contains_char c s = false -> contains_char c (rstrip s) = false.
Proof.
  induction s as [|a s IH]; [reflexivity|]. simpl.
  destruct (Ascii.eqb a c) eqn:E; [discriminate|]. intros H.
  specialize (IH H). destruct (rstrip s) as [|b r].
  - destruct (is_space a); [reflexivity|]. simpl. rewrite E. reflexivity.
  - simpl. rewrite E. exact IH.
Qed.

Lemma parse_digits_nonneg (s : string) :
  forall (acc : Z) (after_digit : bool) (v : Z),
    0 <= acc -> parse_digits s acc after_digit = Some v -> 0 <= v.
Proof.
  induction s as [|c s IH]; intros acc after_digit v Hacc; simpl.
  - destruct after_digit; [|discriminate]. intros H. injection H as <-. exact Hacc.
  - destruct (digit_of c) as [d|] eqn:Hd.
    + apply IH. unfold digit_of in Hd.
      destruct ((48 <=? nat_of_ascii c)%nat && (nat_of_ascii c <=? 57)%nat);
        [|discriminate]. injection Hd as <-. lia.
    + destruct (Ascii.eqb c "_" && after_digit); [|discriminate]. apply IH. exact Hacc.
Qed.

Lemma py_int_nonneg (s : string) (v : Z) :
  contains_char "-" s = false -> py_int s = Some v -> 0 <= v.
Proof.
  intros Hc. apply lstrip_contains, rstrip_contains in Hc. unfold py_int.
  cbv zeta. destruct (int_max_str_digits <? digit_count (rstrip (lstrip s)));
    [discriminate|].
  destruct (rstrip (lstrip s)) as [|c r].
  - simpl. discriminate.
  - simpl in Hc. destruct (Ascii.eqb c "-") eqn:E; [discriminate|].
    destruct c as [[] [] [] [] [] [] [] []]; try discriminate E;
      apply parse_digits_nonneg; lia.
Qed.

(** X5: a TCP port string that contains a dash is accepted only when it has
    exactly one dash and both sides are integers, which are then not
    negative; every other such string, any with two or more dashes among
    them, ends in [sys.exit] with the range error. *)
Theorem port_range_needs_one_dash (clock : loc -> string) (N : Z)
    (ip0 proto port_val : string) (tests0 : list loc) (s : heap) :
  upper proto = "TCP" ->
  contains_char "-" port_val = true ->
  ((exists start end_ a b,
      split "-" port_val = [start; end_] /\
      py_int start = Some a /\ py_int end_ = Some b /\ 0 <= a /\ 0 <= b /\
      load_test clock N ip0 (mkTestCfg (Some proto) (Some (PortStr port_val))) tests0 s
        = expand_range clock N a (Z.to_nat (b + 1 - a)) tests0 s) \/
   load_test clock N ip0 (mkTestCfg (Some proto) (Some (PortStr port_val))) tests0 s
     = Raise (SystemExit (BadPortRange port_val ip0))) /\
  ((2 <= count_char "-" port_val)%nat ->
   load_test clock N ip0 (mkTestCfg (Some proto) (Some (PortStr port_val))) tests0 s
     = Raise (SystemExit (BadPortRange port_val ip0))).
Proof.
  intros Hproto Hc.
  assert (Hload :
    load_test clock N ip0 (mkTestCfg (Some proto) (Some (PortStr port_val))) tests0 s =
    match split "-" port_val with
    | [start; end_] =>
        match py_int start, py_int end_ with
        | Some a, Some b => expand_range clock N a (Z.to_nat (b + 1 - a)) tests0
        | _, _ => raise (SystemExit (BadPortRange port_val ip0))
        end
    | _ => raise (SystemExit (BadPortRange port_val ip0))
    end s).
  { unfold load_test.
    change (upper (default "ICMP" (cfg_protocol
              (mkTestCfg (Some proto) (Some (PortStr port_val))))))
      with (upper proto).
    rewrite Hproto.
    change (String.eqb "TCP" "TCP") with true. cbn [cfg_port]. cbv iota.
    rewrite Hc. reflexivity. }
  rewrite Hload. clear Hload.
  pose proof (split_length "-" port_val) as Hlen.
  pose proof (split_parts_clean "-" port_val) as Hclean.
  destruct (split "-" port_val) as [|start [|end_ [|x xs]]]; simpl in Hlen.
  - split; [right; reflexivity | intros; reflexivity].
  - split; [right; reflexivity | intros; reflexivity].
  - split; [|intros; lia].
    destruct (py_int start) as [a|] eqn:Ha; [|right; reflexivity].
    destruct (py_int end_) as [b|] eqn:Hb; [|right; reflexivity].
    left. exists start, end_, a, b.
    split; [reflexivity|]. split; [exact Ha|]. split; [exact Hb|].
    split; [apply (py_int_nonneg start); [apply Hclean; set_solver | exact Ha]|].
    split; [apply (py_int_nonneg end_); [apply Hclean; set_solver | exact Hb]|].
    reflexivity.
  - split; [right; reflexivity | intros; reflexivity].
Qed.

Lemma port_range_needs_one_dash_witness :
  load_test example_clock 3 "10.0.0.1"
    (mkTestCfg (Some "tcp") (Some (PortStr "-1-5"))) [] empty_heap
  = Raise (SystemExit (BadPortRange "-1-5" "10.0.0.1")).
Proof.
  apply (proj2 (port_range_needs_one_dash example_clock 3 "10.0.0.1" "tcp" "-1-5"
                  [] empty_heap eq_refl eq_refl)).
  simpl. lia.
Defined.

(** X6: a test whose protocol, upper-cased, is not "TCP" (or that names no
    protocol) becomes one ICMP test without a port, whatever its [port]
    entry says. *)
Theorem other_protocols_become_icmp (clock : loc -> string) (N : Z)
    (ip0 : string) (test : test_cfg) (tests0 ts : list loc) (s : heap) :
  pool clock N ts s ->
  upper (default "ICMP" (cfg_protocol test)) <> "TCP" ->
  exists t o s',
    load_test clock N ip0 test tests0 s = Ok (tests0 ++ [t], s') /\
    objs s' !! t = Some o /\ objs s !! t = None /\
    protocol o = "ICMP" /\ port o = None /\
    lists s' !! history o = Some (repeat "." (Z.to_nat N)) /\
    extends s s'.
Proof.
  intros Hpool Hproto.
  destruct (TestResult_init_run clock "ICMP" None N ts s Hpool)
    as (t & s' & o & Hrun & [_ Hcons] & Hext & Ho & Hp & Hport & Hfresh & _);
    [left; reflexivity|].
  exists t, o, s'. split.
  { unfold load_test.
    destruct (String.eqb_spec (upper (default "ICMP" (cfg_protocol test))) "TCP")
      as [E|_]; [contradiction|].
    rewrite (run_bind _ _ _ _ _ Hrun). reflexivity. }
  split; [exact Ho|]. split; [exact Hfresh|]. split; [exact Hp|]. split; [exact Hport|].
  split; [|exact Hext].
  destruct (Hcons t) as (o' & Ho' & _ & _ & _ & Hl); [set_solver|]. congruence.
Qed.

Lemma other_protocols_become_icmp_witness :
  exists t o s',
    load_test example_clock 3 "10.0.0.1"
      (mkTestCfg (Some "udp") (Some (PortInt 53))) [] empty_heap
      = Ok ([] ++ [t], s') /\
    objs s' !! t = Some o /\ objs empty_heap !! t = None /\
    protocol o = "ICMP" /\ port o = None /\
    lists s' !! history o = Some (repeat "." (Z.to_nat 3)) /\
    extends empty_heap s'.
Proof.
  apply (other_protocols_become_icmp example_clock 3 "10.0.0.1"
           (mkTestCfg (Some "udp") (Some (PortInt 53))) [] [] empty_heap).
  - exact (pool_empty example_clock 3).
  - discriminate.
Defined.

(** ** What a tick changes *)

(** X7: a tick changes, in every history list, the slot at the current
    index and nothing else, and keeps its length; it keeps the protocol, the
    port and the history list of every test, and leaves every object and
    list that is not a test's, or a test's history, as it is. *)
Theorem update_tests_touches_one_slot (env : tick_env) (m : MultiPing) (s : heap) :
  wf m s ->
  exists s',
    update_tests env m s = Ok (tt, s') /\
    (forall t o l,
       t ∈ all_tests m -> objs s !! t = Some o -> lists s !! history o = Some l ->
       exists o' l',
         objs s' !! t = Some o' /\
         protocol o' = protocol o /\ port o' = port o /\ history o' = history o /\
         lists s' !! history o = Some l' /\
         length l' = length l /\
         forall j, j <> Z.to_nat (current_index m) -> l' !! j = l !! j) /\
    (forall t, t ∉ all_tests m -> objs s' !! t = objs s !! t) /\
    (forall b,
       (forall t o, t ∈ all_tests m -> objs s !! t = Some o -> history o <> b) ->
       lists s' !! b = lists s !! b).
Proof.
  intros Hwf.
  destruct (update_tests_run env m s Hwf) as (s' & Hrun & _ & [T1 T2 T3 T4 _]).
  exists s'. split; [exact Hrun|]. split; [|split; [exact T2 | exact T4]].
  intros t o l Hin Ho Hl. eexists _, _.
  split; [apply (T1 t o Hin Ho)|].
  assert (Hrec : forall r now, protocol (recorded r now o) = protocol o /\
                               port (recorded r now o) = port o /\
                               history (recorded r now o) = history o).
  { intros r now. unfold recorded. destruct (fst r); auto. }
  destruct (Hrec (result_of env t) (strftime env t)) as (A & B & C).
  split; [exact A|]. split; [exact B|]. split; [exact C|].
  split; [apply (T3 t o l Hin Ho Hl)|].
  split; [apply length_insert|].
  intros j Hj. apply list_lookup_insert_ne. auto.
Qed.

Lemma update_tests_touches_one_slot_witness :
  exists s',
    update_tests env_up example_m example_heap = Ok (tt, s') /\
    (forall t o l,
       t ∈ all_tests example_m -> objs example_heap !! t = Some o ->
       lists example_heap !! history o = Some l ->
       exists o' l',
         objs s' !! t = Some o' /\
         protocol o' = protocol o /\ port o' = port o /\ history o' = history o /\
         lists s' !! history o = Some l' /\
         length l' = length l /\
         forall j, j <> Z.to_nat (current_index example_m) -> l' !! j = l !! j) /\
    (forall t, t ∉ all_tests example_m -> objs s' !! t = objs example_heap !! t) /\
    (forall b,
       (forall t o, t ∈ all_tests example_m -> objs example_heap !! t = Some o ->
                    history o <> b) ->
       lists s' !! b = lists example_heap !! b).
Proof.
  exact (update_tests_touches_one_slot env_up example_m example_heap example_wf).
Defined.

(** X8: after a tick the [service] of a TCP test is "open" when its probe
    answered and "closed" otherwise, the [service] of an ICMP test is what it
    was, and the latency of a test whose probe answered without a latency
    is 0, with the symbol ".". *)
Theorem service_mirrors_liveness (env : tick_env) (m : MultiPing) (s : heap) :
  wf m s ->
  exists s',
    update_tests env m s = Ok (tt, s') /\
    forall t o,
      t ∈ all_tests m -> objs s !! t = Some o ->
      exists o' l',
        objs s' !! t = Some o' /\
        lists s' !! history o' = Some l' /\
        (protocol o = "TCP" ->
         service o' = if fst (future_result (future_of env t)) then "open" else "closed") /\
        (protocol o = "ICMP" -> service o' = service o) /\
        (future_result (future_of env t) = (true, None) ->
         latency o' = 0%Q /\ l' !! Z.to_nat (current_index m) = Some ".").
Proof.
  intros Hwf.
  destruct (update_tests_run env m s Hwf) as (s' & Hrun & _ & [T1 _ T3 _ _]).
  exists s'. split; [exact Hrun|].
  intros t o Hin Ho.
  destruct Hwf as [Hi [_ Hgood _]].
  destruct (Hgood t Hin) as (o0 & l & Ho0 & _ & Hl & Hlen).
  assert (o0 = o) by congruence. subst o0.
  eexists _, _. split; [apply (T1 t o Hin Ho)|].
  split.
  { replace (history (recorded (result_of env t) (strftime env t) o)) with (history o)
      by (unfold recorded; destruct (fst (result_of env t)); reflexivity).
    apply (T3 t o l Hin Ho Hl). }
  unfold recorded, recorded_symbol, result_of.
  split; [|split].
  - intros ->. destruct (fst (future_result (future_of env t))); reflexivity.
  - intros ->. destruct (fst (future_result (future_of env t))); reflexivity.
  - intros ->. simpl. split; [reflexivity|]. apply list_lookup_insert_eq. lia.
Qed.

Lemma service_mirrors_liveness_witness :
  exists s',
    update_tests env_down example_m example_heap = Ok (tt, s') /\
    forall t o,
      t ∈ all_tests example_m -> objs example_heap !! t = Some o ->
      exists o' l',
        objs s' !! t = Some o' /\
        lists s' !! history o' = Some l' /\
        (protocol o = "TCP" ->
         service o' = if fst (future_result (future_of env_down t))
                      then "open" else "closed") /\
        (protocol o = "ICMP" -> service o' = service o) /\
        (future_result (future_of env_down t) = (true, None) ->
         latency o' = 0%Q /\ l' !! Z.to_nat (current_index example_m) = Some ".").
Proof.
  exact (service_mirrors_liveness env_down example_m example_heap example_wf).
Defined.

(** ** A history length that is not positive *)

Lemma py_index_empty_negative (i : Z) : i < 0 -> py_index 0 i = None.
Proof.
  intros Hi. unfold py_index. change (Z.of_nat 0) with 0. change (- 0) with 0.
  destruct (Z.leb_spec 0 i); [lia|]. reflexivity.
Qed.

Lemma load_config_tests_nonempty (clock : loc -> string) (N : Z)
    (hostname_I : list string) (data : config) (s : heap) (hs : list Host) (s' : heap) :
  load_config clock N hostname_I data s = Ok (hs, s') ->
  Forall (fun h => tests h <> []) hs.
Proof.
  unfold load_config. destruct (cfg_hosts data) as [items|]; [|discriminate].
  intros H. destruct (load_host_items_shape _ _ _ _ _ _ _ _ H) as (new & E & Hnew).
  simpl in E. subst new.
  destruct (Forall2_host_of_entry _ _ _ Hnew) as (_ & _ & C).
  eapply Forall_impl; [exact C|]. intros h (_ & Hne & _). exact Hne.
Qed.

(** X9: [MultiPing.__init__] accepts a history length that is zero or
    negative, the histories are then empty, and with at least one host the
    first [update_tests] raises [IndexError] in its first loop, so [run]
    raises it in its first iteration. *)
Theorem nonpositive_history_length_raises (clock : loc -> string)
    (hostname_I : list string) (data : config) (N : Z) (m : MultiPing) (s : heap)
    (env : tick_env) (n : nat) (envs : nat -> tick_env) :
  N <= 0 ->
  MultiPing_init clock hostname_I data N empty_heap = Ok (m, s) ->
  hosts m <> [] ->
  (forall t, t ∈ all_tests m ->
     exists o, objs s !! t = Some o /\ lists s !! history o = Some []) /\
  update_tests env m s = Raise IndexError /\
  run (S n) envs m s = Raise IndexError.
Proof.
  intros HN Hinit Hhosts.
  unfold MultiPing_init in Hinit.
  apply bind_Ok_inv in Hinit as (hs & s1 & Hload & Hret). injection Hret as <- <-.
  destruct (load_config_pool _ _ _ _ _ _ Hload) as [[[_ Hgood _] _] _].
  pose proof (load_config_tests_nonempty _ _ _ _ _ _ _ Hload) as Hne.
  assert (Hlists : forall t, t ∈ flat_map tests hs ->
            exists o, objs s1 !! t = Some o /\ lists s1 !! history o = Some []).
  { intros t Hin. destruct (Hgood t Hin) as (o & l & Ho & _ & Hl & Hlen).
    exists o. split; [exact Ho|].
    replace (Z.to_nat N) with O in Hlen by lia.
    destruct l; [exact Hl | discriminate Hlen]. }
  split; [exact Hlists|].
  assert (Hup : forall e, update_tests e (mkMultiPing N (N - 1) hs) s1 = Raise IndexError).
  { intros e. unfold update_tests. apply run_bind_raise.
    unfold premark. rewrite for_each_nested. simpl hosts. simpl current_index.
    destruct hs as [|h hs]; [contradiction|].
    apply Forall_cons in Hne as [Hh _].
    simpl in *. destruct (tests h) as [|t ts]; [contradiction|].
    destruct (Hlists t) as (o & Ho & Hl); [set_solver|].
    simpl. apply run_bind_raise. unfold premark_test. apply run_bind_raise.
    unfold update_history.
    rewrite (run_bind _ _ _ _ _ (run_get_obj _ _ _ Ho)).
    rewrite (run_bind _ _ _ _ _ (run_get_list _ _ _ Hl)).
    simpl length. rewrite py_index_empty_negative by lia. reflexivity. }
  split; [apply Hup|].
  simpl. apply run_bind_raise. apply Hup.
Qed.

Lemma nonpositive_history_length_raises_witness :
  exists m s,
    MultiPing_init example_clock [] example_config 0 empty_heap = Ok (m, s) /\
    update_tests env_up m s = Raise IndexError /\
    run 1 (fun _ => env_up) m s = Raise IndexError.
Proof.
  eexists _, _. split; [vm_compute; reflexivity|].
  eapply (nonpositive_history_length_raises example_clock [] example_config 0).
  - lia.
  - vm_compute. reflexivity.
  - discriminate.
Defined.

(** ** The history over the ticks *)

Lemma repeat_lookup {A} (x : A) (n i : nat) :
  (i < n)%nat -> repeat x n !! i = Some x.
Proof.
  revert i. induction n as [|n IH]; intros i Hi; [lia|].
  destruct i as [|i]; [reflexivity|]. simpl. apply IH. lia.
Qed.

Lemma run_ring (n : nat) :
  forall (env : nat -> tick_env) (m : MultiPing) (s : heap) (t : loc)
         (o : TestResult) (l : list string),
    wf m s -> t ∈ all_tests m -> objs s !! t = Some o ->
    lists s !! history o = Some l ->
    exists m' s' l',
      run n env m s = Ok (m', s') /\
      lists s' !! history o = Some l' /\
      (forall k, (k < n)%nat -> Z.of_nat n - Z.of_nat k <= history_length m ->
         l' !! Z.to_nat ((current_index m - Z.of_nat k) `mod` history_length m)
           = Some (recorded_symbol (result_of (env k) t))) /\
      (forall j,
         (forall k, (k < n)%nat ->
            j <> Z.to_nat ((current_index m - Z.of_nat k) `mod` history_length m)) ->
         l' !! j = l !! j).
Proof.
  induction n as [|n IH]; intros env m s t o l Hwf Hin Ho Hl.
  - exists m, s, l. split; [reflexivity|]. split; [exact Hl|].
    split; [intros k Hk; lia | intros; reflexivity].
  - pose proof (wf_index _ _ Hwf) as Hi.
    destruct (ok_good _ _ _ (wf_tests _ _ Hwf) t Hin) as (o0 & l0 & Ho0 & _ & Hl0 & Hlen).
    assert (o0 = o) by congruence. subst o0.
    assert (l0 = l) by congruence. subst l0.
    destruct (run_step n env m s Hwf) as (s1 & _ & Hwf1 & Haft & Hstep).
    pose proof (tick_obj _ _ _ _ Haft t o Hin Ho) as Ho1.
    pose proof (tick_list _ _ _ _ Haft t o l Hin Ho Hl) as Hl1.
    set (o1 := recorded (result_of (env O) t) (strftime (env O) t) o) in *.
    assert (Hh1 : history o1 = history o)
      by (unfold o1, recorded; destruct (fst (result_of (env O) t)); reflexivity).
    rewrite <- Hh1 in Hl1.
    assert (Hslot : <[Z.to_nat (current_index m) := recorded_symbol (result_of (env O) t)]> l
                      !! Z.to_nat (current_index m)
                    = Some (recorded_symbol (result_of (env O) t)))
      by (apply list_lookup_insert_eq; lia).
    destruct (advance_index m Hi) as [_ Hadv].
    destruct (IH (fun k => env (S k)) (advance m) s1 t o1 _ Hwf1 Hin Ho1 Hl1)
      as (m' & s' & l' & Hrun & Hl' & Hk' & Hj').
    rewrite Hh1 in Hl'. simpl history_length in Hk', Hj'. rewrite Hadv in Hk', Hj'.
    assert (Hshift : forall k,
              ((current_index m - 1) `mod` history_length m - Z.of_nat k)
                `mod` history_length m
              = (current_index m - Z.of_nat (S k)) `mod` history_length m).
    { intros k. rewrite Zminus_mod_idemp_l. f_equal. lia. }
    exists m', s', l'. rewrite Hstep.
    split; [exact Hrun|]. split; [exact Hl'|].
    split.
    + intros [|k] Hk Hlast.
      * rewrite Z.sub_0_r, Z.mod_small by lia.
        rewrite Hj'; [exact Hslot|].
        intros k Hkn Heq. rewrite Hshift in Heq.
        apply Z2Nat.inj in Heq; [|lia|apply Z.mod_pos_bound; lia].
        destruct (Z.le_gt_cases 0 (current_index m - Z.of_nat (S k))) as [Hge|Hlt].
        -- rewrite Z.mod_small in Heq by lia. lia.
        -- replace (current_index m - Z.of_nat (S k))
             with (current_index m - Z.of_nat (S k) + history_length m
                   + (-1) * history_length m) in Heq by lia.
           rewrite Z_mod_plus_full, Z.mod_small in Heq by lia. lia.
      * rewrite <- Hshift. apply Hk'; lia.
    + intros j Hj. rewrite Hj'.
      * apply list_lookup_insert_ne. specialize (Hj O ltac:(lia)).
        rewrite Z.sub_0_r, Z.mod_small in Hj by lia. auto.
      * intros k Hk. rewrite Hshift. apply Hj. lia.
Qed.

(** X10: the history is a ring of the last [N] ticks.  After [n] iterations
    of [run] on the instance [MultiPing.__init__] builds, the history of a
    test holds, for each of its last [N] ticks [k], the symbol of that tick
    at index [(N - 1 - k) mod N]; while [n < N], the indices below [N - n]
    still hold ".". *)
Theorem history_holds_the_last_ticks (clock : loc -> string) (hostname_I : list string)
    (data : config) (N : Z) (m : MultiPing) (s : heap)
    (t : loc) (n : nat) (env : nat -> tick_env) :
  1 <= N ->
  MultiPing_init clock hostname_I data N empty_heap = Ok (m, s) ->
  t ∈ all_tests m ->
  exists m' s' o' l',
    run n env m s = Ok (m', s') /\
    objs s' !! t = Some o' /\
    lists s' !! history o' = Some l' /\
    (forall k, (k < n)%nat -> Z.of_nat n - Z.of_nat k <= N ->
       let (up, latency) := future_result (future_of (env k) t) in
       l' !! Z.to_nat ((N - 1 - Z.of_nat k) `mod` N)
         = Some (if up then symbol_for_latency latency else "X")) /\
    (forall j, Z.of_nat j < N - Z.of_nat n -> l' !! j = Some ".").
Proof.
  intros HN Hinit Hin.
  destruct (MultiPing_init_wf _ _ _ _ _ _ HN Hinit) as (Hwf & HlenN & Hc & _ & Hnew).
  destruct (Hnew t Hin) as (o & Ho & _ & _ & _ & Hl).
  destruct (run_ring n env m s t o _ Hwf Hin Ho Hl) as (m' & s' & l' & Hrun & Hl' & Hk & Hj).
  destruct (run_spec n env m s Hwf) as (m2 & s2 & _ & Hrun2 & _ & _ & _ & _ & _ & _ & Hobj).
  rewrite Hrun in Hrun2. injection Hrun2 as <- <-.
  destruct (Hobj t o Hin Ho) as (o' & Ho' & Hh).
  exists m', s', o', l'. split; [exact Hrun|]. split; [exact Ho'|].
  split; [rewrite Hh; exact Hl'|].
  rewrite Hc, HlenN in Hk, Hj. split.
  - intros k Hlt Hlast. specialize (Hk k Hlt Hlast).
    unfold recorded_symbol, result_of in Hk.
    destruct (future_result (future_of (env k) t)) as [up latency]. exact Hk.
  - intros j Hlt. rewrite Hj.
    + apply repeat_lookup. lia.
    + intros k Hkn. rewrite Z.mod_small by lia. lia.
Qed.

Lemma history_holds_the_last_ticks_witness :
  exists m' s' o' l',
    run 5 env_streak example_m example_heap = Ok (m', s') /\
    objs s' !! 0%nat = Some o' /\
    lists s' !! history o' = Some l' /\
    (forall k, (k < 5)%nat -> Z.of_nat 5 - Z.of_nat k <= 3 ->
       let (up, latency) := future_result (future_of (env_streak k) 0%nat) in
       l' !! Z.to_nat ((3 - 1 - Z.of_nat k) `mod` 3)
         = Some (if up then symbol_for_latency latency else "X")) /\
    (forall j, Z.of_nat j < 3 - Z.of_nat 5 -> l' !! j = Some ".").
Proof.
  apply (history_holds_the_last_ticks example_clock [] example_config 3
           example_m example_heap 0%nat 5 env_streak).
  - lia.
  - exact example_start_eq.
  - vm_compute. set_solver.
Defined.

(** ** The order of the history string *)

Lemma rev_as_map {A} (d : A) (l : list A) :
  map (fun i => nth (length l - 1 - i) l d) (seq 0 (length l)) = rev l.
Proof.
  induction l as [|x l IH] using rev_ind; [reflexivity|].
  rewrite length_app, Nat.add_1_r, rev_unit. simpl seq. simpl map.
  f_equal.
  - rewrite app_nth2 by lia.
    replace (length l - 0 - 0 - length l)%nat with O by lia. reflexivity.
  - rewrite <- (seq_shift (length l) 0), map_map. rewrite <- IH. apply map_ext_in.
    intros i Hi. apply in_seq in Hi.
    rewrite app_nth1 by lia. f_equal. lia.
Qed.

Lemma nth_take {A} (d : A) (l : list A) (k i : nat) :
  (i < k)%nat -> nth i (take k l) d = nth i l d.
Proof.
  intros Hi. rewrite !nth_lookup, lookup_take_lt by lia. reflexivity.
Qed.

Lemma nth_drop {A} (d : A) (l : list A) (k i : nat) :
  nth i (drop k l) d = nth (k + i) l d.
Proof. rewrite !nth_lookup, lookup_drop. reflexivity. Qed.

Lemma seq_from (a n : nat) : seq a n = map (Nat.add a) (seq 0 n).
Proof.
  revert a. induction n as [|n IH]; intros a; [reflexivity|].
  cbn [seq map]. rewrite Nat.add_0_r. f_equal.
  rewrite <- (seq_shift n 0), map_map. rewrite (IH (S a)).
  apply map_ext. intros i. lia.
Qed.

Lemma render_symbols_rotation (l : list string) (c N : Z) :
  length l = Z.to_nat N -> 0 <= c < N ->
  map (fun i : nat => nth (Z.to_nat ((c - Z.of_nat i + N) `mod` N)) l "")
      (seq 0 (Z.to_nat N))
  = rev (take (S (Z.to_nat c)) l) ++ rev (drop (S (Z.to_nat c)) l).
Proof.
  intros Hlen Hc.
  set (k := Z.to_nat c).
  replace (Z.to_nat N) with (S k + (length l - S k))%nat by lia.
  rewrite seq_app, map_app. f_equal.
  - rewrite <- (rev_as_map "" (take (S k) l)).
    rewrite length_take, Nat.min_l by lia.
    apply map_ext_in. intros i Hi. apply in_seq in Hi.
    rewrite nth_take by lia. f_equal.
    replace (c - Z.of_nat i + N) with (c - Z.of_nat i + 1 * N) by lia.
    rewrite Z_mod_plus_full, Z.mod_small by lia. lia.
  - rewrite <- (rev_as_map "" (drop (S k) l)).
    rewrite length_drop. simpl Nat.add.
    rewrite (seq_from (S k)), map_map. apply map_ext_in. intros i Hi. apply in_seq in Hi.
    rewrite nth_drop. f_equal.
    rewrite Z.mod_small by lia. lia.
Qed.

Lemma history_string_rotates (t : loc) (c N : Z)
    (o : TestResult) (l : list string) (s : heap) :
  objs s !! t = Some o ->
  lists s !! history o = Some l ->
  length l = Z.to_nat N ->
  0 <= c < N ->
  get_history_string t c N s
    = Ok (concat_strings (rev (take (S (Z.to_nat c)) l)
                          ++ rev (drop (S (Z.to_nat c)) l)), s).
Proof.
  intros Ho Hl Hlen Hc.
  rewrite (run_get_history_string _ _ _ _ _ _ Ho Hl Hlen).
  unfold render_spec. rewrite (render_symbols_rotation _ _ _ Hlen Hc). reflexivity.
Qed.

(** X11: for a current index inside a history of [history_length] symbols,
    the history string is the slot at the current index followed by the
    slots below it down to slot 0, and then the slots from the last one down
    to the one after the current index: every slot is shown exactly once. *)
Theorem history_string_is_a_rotation (t : loc) (current_index history_length : Z)
    (o : TestResult) (l : list string) (s : heap) :
  objs s !! t = Some o ->
  lists s !! history o = Some l ->
  length l = Z.to_nat history_length ->
  0 <= current_index < history_length ->
  get_history_string t current_index history_length s
    = Ok (concat_strings (rev (take (S (Z.to_nat current_index)) l)
                          ++ rev (drop (S (Z.to_nat current_index)) l)), s) /\
  Permutation (rev (take (S (Z.to_nat current_index)) l)
               ++ rev (drop (S (Z.to_nat current_index)) l)) l.
Proof.
  intros Ho Hl Hlen Hc. split.
  - apply (history_string_rotates _ _ _ _ _ _ Ho Hl Hlen Hc).
  - rewrite <- (take_drop (S (Z.to_nat current_index)) l) at 3.
    apply Permutation_app; symmetry; apply Permutation_rev.
Qed.

Lemma history_string_is_a_rotation_witness :
  get_history_string 0 1 5 letters_heap
    = Ok (concat_strings (rev (take (S (Z.to_nat 1)) ["A"; "B"; "C"; "D"; "E"])
                          ++ rev (drop (S (Z.to_nat 1)) ["A"; "B"; "C"; "D"; "E"])),
          letters_heap) /\
  Permutation (rev (take (S (Z.to_nat 1)) ["A"; "B"; "C"; "D"; "E"])
               ++ rev (drop (S (Z.to_nat 1)) ["A"; "B"; "C"; "D"; "E"]))
              ["A"; "B"; "C"; "D"; "E"].
Proof.
  apply (history_string_is_a_rotation 0%nat 1 5 (example_test "ICMP" None 0)
           ["A"; "B"; "C"; "D"; "E"] letters_heap).
  - reflexivity.
  - reflexivity.
  - reflexivity.
  - lia.
Defined.

(** X12: the history string [display_results] computes for a test after
    [update_tests] begins with the symbol recorded in this tick. *)
Theorem displayed_history_starts_with_this_tick (env : tick_env) (m : MultiPing)
    (s : heap) (t : loc) :
  wf m s -> t ∈ all_tests m ->
  exists s' rest,
    update_tests env m s = Ok (tt, s') /\
    let (up, latency) := future_result (future_of env t) in
    get_history_string t (current_index m) (history_length m) s'
      = Ok ((if up then symbol_for_latency latency else "X") +:+ rest, s').
Proof.
  intros Hwf Hin.
  destruct (update_tests_run env m s Hwf) as (s' & Hrun & Hwf' & [T1 _ T3 _ _]).
  pose proof (wf_index _ _ Hwf) as Hi.
  destruct (ok_good _ _ _ (wf_tests _ _ Hwf) t Hin) as (o & l & Ho & _ & Hl & Hlen).
  pose proof (T1 t o Hin Ho) as Ho'. pose proof (T3 t o l Hin Ho Hl) as Hl'.
  set (l' := <[Z.to_nat (current_index m) := recorded_symbol (result_of env t)]> l) in *.
  assert (Hlen' : length l' = Z.to_nat (history_length m))
    by (unfold l'; rewrite length_insert; exact Hlen).
  assert (Hh : history (recorded (result_of env t) (strftime env t) o) = history o)
    by (unfold recorded; destruct (fst (result_of env t)); reflexivity).
  rewrite <- Hh in Hl'.
  pose proof (history_string_rotates t (current_index m) (history_length m) _ l' s'
                Ho' Hl' Hlen' Hi) as Hget.
  assert (Htake : take (S (Z.to_nat (current_index m))) l'
                  = take (Z.to_nat (current_index m)) l'
                    ++ [recorded_symbol (result_of env t)]).
  { apply take_S_r. unfold l'. apply list_lookup_insert_eq. lia. }
  rewrite Htake, rev_unit in Hget. simpl in Hget.
  exists s', (concat_strings (rev (take (Z.to_nat (current_index m)) l')
                              ++ rev (drop (S (Z.to_nat (current_index m))) l'))).
  split; [exact Hrun|].
  unfold recorded_symbol, result_of in Hget.
  destruct (future_result (future_of env t)) as [up latency]. exact Hget.
Qed.

Lemma displayed_history_starts_with_this_tick_witness :
  exists s' rest,
    update_tests env_up example_m example_heap = Ok (tt, s') /\
    let (up, latency) := future_result (future_of env_up 0%nat) in
    get_history_string 0 (current_index example_m) (history_length example_m) s'
      = Ok ((if up then symbol_for_latency latency else "X") +:+ rest, s').
Proof.
  apply (displayed_history_starts_with_this_tick env_up example_m example_heap 0%nat).
  - exact example_wf.
  - vm_compute. set_solver.
Defined.

(** X13: between two ticks [display_results] raises nothing and changes
    neither an object, nor a list, nor the log. *)
Theorem display_results_changes_nothing (m : MultiPing) (s : heap) :
  wf m s -> display_results m s = Ok (tt, s).
Proof. exact (display_results_run m s). Qed.

Lemma display_results_changes_nothing_witness :
  display_results example_m example_heap = Ok (tt, example_heap).
Proof.
  exact (display_results_changes_nothing example_m example_heap example_wf).
Defined.

(** ** A history shorter than the length asked for *)

Lemma py_index_beyond (len : nat) (i : Z) :
  Z.of_nat len <= i -> py_index len i = None.
Proof.
  intros Hi. unfold py_index.
  destruct (Z.ltb_spec i (Z.of_nat len)); [lia|].
  destruct (Z.ltb_spec i 0); [lia|].
  rewrite !andb_false_r. reflexivity.
Qed.

Lemma get_history_loop_short (l : list string) (cur N : Z) (n : nat) :
  0 < N ->
  forall (i0 : Z) (acc : string),
    (exists i, i0 <= i < i0 + Z.of_nat n /\
               Z.of_nat (length l) <= (cur - i + N) `mod` N) ->
    get_history_loop l cur N i0 n acc = Raise IndexError.
Proof.
  intros HN. induction n as [|n IH]; intros i0 acc (i & Hi & Hbad); [lia|].
  cbn [get_history_loop].
  pose proof (Z.mod_pos_bound (cur - i0 + N) N HN) as Hb.
  destruct (Z.le_gt_cases (Z.of_nat (length l)) ((cur - i0 + N) `mod` N)) as [Hge|Hlt].
  - rewrite py_index_beyond by exact Hge. reflexivity.
  - rewrite py_index_in_range by lia.
    destruct (lookup_lt_is_Some_2 l (Z.to_nat ((cur - i0 + N) `mod` N))) as [x Hx]; [lia|].
    rewrite Hx. apply IH. exists i. split; [|exact Hbad].
    assert (i <> i0) by (intros ->; lia). lia.
Qed.

(** X14: asked for more symbols than the history of the test holds,
    [get_history_string] raises [IndexError], whatever the current index. *)
Theorem short_history_raises (t : loc) (current_index history_length : Z)
    (o : TestResult) (l : list string) (s : heap) :
  objs s !! t = Some o ->
  lists s !! history o = Some l ->
  Z.of_nat (length l) < history_length ->
  get_history_string t current_index history_length s = Raise IndexError.
Proof.
  intros Ho Hl Hlen. unfold get_history_string.
  rewrite (run_bind _ _ _ _ _ (run_get_obj _ _ _ Ho)).
  rewrite (run_bind _ _ _ _ _ (run_get_list _ _ _ Hl)).
  assert (HN : 0 < history_length) by lia.
  rewrite (get_history_loop_short l current_index history_length
             (Z.to_nat history_length) HN 0 ""); [reflexivity|].
  exists ((current_index - Z.of_nat (length l)) `mod` history_length).
  pose proof (Z.mod_pos_bound (current_index - Z.of_nat (length l)) history_length HN).
  split; [lia|].
  replace (current_index - (current_index - Z.of_nat (length l)) `mod` history_length
           + history_length)
    with (current_index + history_length
          - (current_index - Z.of_nat (length l)) `mod` history_length) by lia.
  rewrite Zminus_mod_idemp_r.
  replace (current_index + history_length - (current_index - Z.of_nat (length l)))
    with (Z.of_nat (length l) + 1 * history_length) by lia.
  rewrite Z_mod_plus_full, Z.mod_small by lia. lia.
Qed.

Lemma short_history_raises_witness :
  get_history_string 0 2 6 letters_heap = Raise IndexError.
Proof.
  apply (short_history_raises 0%nat 2 6 (example_test "ICMP" None 0)
           ["A"; "B"; "C"; "D"; "E"] letters_heap).
  - reflexivity.
  - reflexivity.
  - simpl. lia.
Defined.

(** ** [format_status] *)

Lemma skip_while_length (p : ascii -> bool) (s : string) :
  (String.length (skip_while p s) <= String.length s)%nat.
Proof.
  induction s as [|c s IH]; simpl; [lia|]. destruct (p c); simpl; lia.
Qed.

Lemma match_csi_shorter (s rest : string) :
  match_csi s = Some rest -> (String.length rest < String.length s)%nat.
Proof.
  unfold match_csi. destruct s as [|e [|b r]]; try discriminate.
  - destruct (Ascii.eqb e "027"); discriminate.
  - destruct (Ascii.eqb e "027"); [|discriminate].
    destruct (Ascii.eqb b "["); [|discriminate].
    pose proof (skip_while_length (in_range 48 63) r) as H1.
    pose proof (skip_while_length (in_range 32 47) (skip_while (in_range 48 63) r)) as H2.
    destruct (skip_while (in_range 32 47) (skip_while (in_range 48 63) r)) as [|c rest'];
      [discriminate|].
    destruct (in_range 64 126 c); [|discriminate].
    intros H. injection H as <-. simpl in *. lia.
Qed.

Lemma sub_csi_fuel (f1 : nat) :
  forall (f2 : nat) (s : string),
    (String.length s <= f1)%nat -> (String.length s <= f2)%nat ->
    sub_csi f1 s = sub_csi f2 s.
Proof.
  induction f1 as [|f1 IH]; intros f2 s H1 H2.
  - destruct s; [|simpl in H1; lia]. destruct f2; reflexivity.
  - destruct f2 as [|f2]; [destruct s; [reflexivity | simpl in H2; lia]|].
    destruct s as [|c r]; [reflexivity|]. cbn [sub_csi].
    destruct (match_csi (String c r)) as [rest|] eqn:E.
    + apply match_csi_shorter in E. simpl in *. apply IH; lia.
    + f_equal. simpl in *. apply IH; lia.
Qed.

Lemma strip_ansi_space (s : string) :
  strip_ansi (String " " s) = String " " (strip_ansi s).
Proof. reflexivity. Qed.

Lemma strip_ansi_spaces (n : nat) (s : string) :
  strip_ansi (spaces n +:+ s) = spaces n +:+ strip_ansi s.
Proof.
  induction n as [|n IH]; [reflexivity|].
  change (spaces (S n) +:+ s) with (String " " (spaces n +:+ s)).
  rewrite strip_ansi_space, IH. reflexivity.
Qed.

Lemma string_length_app (a b : string) :
  String.length (a +:+ b) = (String.length a + String.length b)%nat.
Proof.
  induction a as [|c a IH]; [reflexivity|].
  change (String c a +:+ b) with (String c (a +:+ b)). simpl. rewrite IH. reflexivity.
Qed.

Lemma spaces_length (n : nat) : String.length (spaces n) = n.
Proof. induction n as [|n IH]; [reflexivity|]. simpl. rewrite IH. reflexivity. Qed.

(** X15: [format_status] only ever puts spaces in front of its argument,
    and what is left of the result once the escape sequences are removed has
    [width] characters, or as many as the cleaned argument has when those are
    more: a status is never cut. *)
Theorem format_status_pads_visible_width (s : string) (width : Z) :
  (exists n, format_status s width = spaces n +:+ s) /\
  Z.of_nat (String.length (strip_ansi (format_status s width)))
    = Z.max width (Z.of_nat (String.length (strip_ansi s))).
Proof.
  unfold format_status.
  destruct (Z.ltb_spec 0 (width - Z.of_nat (String.length (strip_ansi s)))) as [Hpos|Hle].
  - split; [eexists; reflexivity|].
    rewrite strip_ansi_spaces, string_length_app, spaces_length. lia.
  - split; [exists O; reflexivity|]. lia.
Qed.

(** ** [last_seen] and the last tick *)

(** X16: after a tick, [last_seen] of a test is empty exactly when its probe
    answered in this tick; when it did not, the latency is -1 and
    [last_seen] is the text it had, or the time of this tick when it had
    none. *)
Theorem last_seen_is_empty_iff_up (env : tick_env) (m : MultiPing) (s : heap) :
  wf m s ->
  exists s',
    update_tests env m s = Ok (tt, s') /\
    forall t o,
      t ∈ all_tests m -> objs s !! t = Some o ->
      exists o',
        objs s' !! t = Some o' /\
        (last_seen o' = "" <-> fst (future_result (future_of env t)) = true) /\
        (fst (future_result (future_of env t)) = false ->
         latency o' = (-1)%Q /\
         last_seen o' = if String.eqb (last_seen o) ""
                        then "Last seen: " +:+ strftime env t else last_seen o).
Proof.
  intros Hwf.
  destruct (update_tests_run env m s Hwf) as (s' & Hrun & _ & [T1 _ _ _ _]).
  exists s'. split; [exact Hrun|].
  intros t o Hin Ho. eexists. split; [apply (T1 t o Hin Ho)|].
  unfold recorded, result_of.
  destruct (fst (future_result (future_of env t))); simpl.
  - split; [split; reflexivity | discriminate].
  - split; [|auto]. split; [|discriminate].
    destruct (String.eqb_spec (last_seen o) "") as [E|E]; [discriminate | contradiction].
Qed.

Lemma last_seen_is_empty_iff_up_witness :
  exists s',
    update_tests env_down example_m example_heap_up = Ok (tt, s') /\
    forall t o,
      t ∈ all_tests example_m -> objs example_heap_up !! t = Some o ->
      exists o',
        objs s' !! t = Some o' /\
        (last_seen o' = "" <-> fst (future_result (future_of env_down t)) = true) /\
        (fst (future_result (future_of env_down t)) = false ->
         latency o' = (-1)%Q /\
         last_seen o' = if String.eqb (last_seen o) ""
                        then "Last seen: " +:+ strftime env_down t else last_seen o).
Proof.
  exact (last_seen_is_empty_iff_up env_down example_m example_heap_up example_up_wf).
Defined.

(** ** The instance at start *)

(** X17: in the instance [MultiPing.__init__] builds for a history length
    [N >= 1], the tests of all hosts are pairwise different objects; each
    has latency -1, an empty [service], and a history of [N] symbols "."
    that it shares with no other test; nothing has been written or
    submitted yet. *)
Theorem fresh_instance_is_all_down (clock : loc -> string) (hostname_I : list string)
    (data : config) (N : Z) (m : MultiPing) (s : heap) :
  1 <= N ->
  MultiPing_init clock hostname_I data N empty_heap = Ok (m, s) ->
  history_length m = N /\ current_index m = N - 1 /\ log s = [] /\
  NoDup (all_tests m) /\
  (forall t, t ∈ all_tests m ->
     exists o, objs s !! t = Some o /\
               latency o = (-1)%Q /\ service o = "" /\
               lists s !! history o = Some (repeat "." (Z.to_nat N))) /\
  (forall t1 t2 o1 o2,
     t1 ∈ all_tests m -> t2 ∈ all_tests m ->
     objs s !! t1 = Some o1 -> objs s !! t2 = Some o2 ->
     t1 <> t2 -> history o1 <> history o2).
Proof.
  intros HN Hinit.
  destruct (MultiPing_init_wf _ _ _ _ _ _ HN Hinit)
    as ([_ [Hnd _ Hown]] & HlenN & Hc & Hlog & Hnew).
  split; [exact HlenN|]. split; [exact Hc|]. split; [exact Hlog|].
  split; [exact Hnd|]. split.
  - intros t Hin. destruct (Hnew t Hin) as (o & Ho & Hlat & _ & Hsvc & Hl).
    exists o. auto.
  - intros t1 t2 o1 o2 H1 H2 Ho1 Ho2 Hne Heq. apply Hne.
    apply (Hown t1 t2 o1 o2); assumption.
Qed.

Lemma fresh_instance_is_all_down_witness :
  history_length example_m = 3 /\ current_index example_m = 3 - 1 /\
  log example_heap = [] /\
  NoDup (all_tests example_m) /\
  (forall t, t ∈ all_tests example_m ->
     exists o, objs example_heap !! t = Some o /\
               latency o = (-1)%Q /\ service o = "" /\
               lists example_heap !! history o = Some (repeat "." (Z.to_nat 3))) /\
  (forall t1 t2 o1 o2,
     t1 ∈ all_tests example_m -> t2 ∈ all_tests example_m ->
     objs example_heap !! t1 = Some o1 -> objs example_heap !! t2 = Some o2 ->
     t1 <> t2 -> history o1 <> history o2).
Proof.
  apply (fresh_instance_is_all_down example_clock [] example_config 3
           example_m example_heap).
  - lia.
  - exact example_start_eq.
Defined.
